(** * stock_analyzer.py: the indicator and scoring engine of StockAnalyzer

    A shallow embedding of [tools/stock_analyzer.py] and the properties of
    its return metrics, technical indicators and recommendation scorer,
    followed by the stand-alone script [examples/stock_analysis_example.py]
    and what relates the two.

    Modelling choices.
    - The price history is its [Close] column, a list of rationals: the
      engine reads no other column.  A close is a finite number (the
      provider's bars carry prices); that it is positive, the PriceSeries
      invariant, is assumed only where a statement says so.
    - numpy/pandas floats are the type [fl]: a rational, an infinity or
      NaN.  Arithmetic follows IEEE-754 for the special values (x/0 is an
      infinity, 0/0 and inf-inf are NaN, every comparison with NaN is
      false) and is exact on rationals: rounding error, overflow and the
      sign of zero are not modelled.  A rational result is kept in lowest
      terms ([Qred]), which only fixes its representation.
    - The square root ([np.sqrt], and the one inside [Series.std]) is a
      parameter of the development.
    - The market-data provider is a pair of functions, one for the price
      history and one for the fundamentals of a ticker, each returning or
      raising; asking twice gives the same answer.
    - A Python dict is a [gmap string pyval]; a Python value is [None], a
      number or a string.  A number stands for its value: an int and the
      float of the same value are one, so an int beyond the range of a
      double, whose true division raises [OverflowError], is outside the
      model; the statement of when the extraction raises excludes it.
      Ordering a non-number against a number raises [TypeError], within
      the model the only exception the engine can meet once the fetch has
      returned: numpy signals division by zero with a warning (silenced at
      import), never with an exception. *)

From Stdlib Require Import ZArith QArith Qabs Qround Lia Lqa.
From stdpp Require Import gmap strings list fin_maps.

Local Open Scope Q_scope.

(** ** Floats *)

Inductive fl : Type :=
  | Fin (q : Q)
  | PInf
  | NInf
  | NaN.

Definition fisnan (x : fl) : bool :=
  match x with NaN => true | _ => false end.

(** The infinity with the sign of [c], NaN for a zero sign. *)
Definition signed_inf (c : comparison) : fl :=
  match c with Gt => PInf | Lt => NInf | Eq => NaN end.

Definition fneg (x : fl) : fl :=
  match x with
  | Fin q => Fin (Qred (- q))
  | PInf => NInf
  | NInf => PInf
  | NaN => NaN
  end.

Definition fadd (x y : fl) : fl :=
  match x, y with
  | NaN, _ | _, NaN => NaN
  | Fin a, Fin b => Fin (Qred (a + b))
  | PInf, NInf | NInf, PInf => NaN
  | PInf, _ | _, PInf => PInf
  | NInf, _ | _, NInf => NInf
  end.

Definition fsub (x y : fl) : fl := fadd x (fneg y).

Definition fmul (x y : fl) : fl :=
  match x, y with
  | NaN, _ | _, NaN => NaN
  | Fin a, Fin b => Fin (Qred (a * b))
  | Fin a, PInf | PInf, Fin a => signed_inf (Qcompare a 0)
  | Fin a, NInf | NInf, Fin a => signed_inf (Qcompare 0 a)
  | PInf, PInf | NInf, NInf => PInf
  | PInf, NInf | NInf, PInf => NInf
  end.

Definition fdiv (x y : fl) : fl :=
  match x, y with
  | NaN, _ | _, NaN => NaN
  | Fin a, Fin b =>
      if Qeq_bool b 0 then signed_inf (Qcompare a 0) else Fin (Qred (a / b))
  | Fin _, _ => Fin 0
  | PInf, Fin b => if Qle_bool 0 b then PInf else NInf
  | NInf, Fin b => if Qle_bool 0 b then NInf else PInf
  | _, _ => NaN
  end.

Definition fltb (x y : fl) : bool :=
  match x, y with
  | NaN, _ | _, NaN => false
  | Fin a, Fin b => match Qcompare a b with Lt => true | _ => false end
  | NInf, NInf | PInf, _ => false
  | NInf, _ | _, PInf => true
  | _, NInf => false
  end.

Definition fleb (x y : fl) : bool :=
  match x, y with
  | NaN, _ | _, NaN => false
  | Fin a, Fin b => Qle_bool a b
  | NInf, _ | _, PInf => true
  | _, _ => false
  end.

Definition fgtb (x y : fl) : bool := fltb y x.

Definition fabs (x : fl) : fl :=
  match x with
  | Fin q => Fin (Qred (Qabs q))
  | PInf | NInf => PInf
  | NaN => NaN
  end.

(** [round]: to the nearest integer, a tie to the even one. *)
Definition rint (q : Q) : Z :=
  let f := Qfloor q in
  match Qcompare (q - inject_Z f) (1 # 2) with
  | Lt => f
  | Gt => (f + 1)%Z
  | Eq => if Z.even f then f else (f + 1)%Z
  end.

Definition Qround (ndigits : nat) (q : Q) : Q :=
  let p := inject_Z (10 ^ Z.of_nat ndigits) in
  Qred (inject_Z (rint (q * p)) / p).

(** [round(x, ndigits)]; NaN and the infinities come back unchanged. *)
Definition fround (ndigits : nat) (x : fl) : fl :=
  match x with
  | Fin q => Fin (Qround ndigits q)
  | _ => x
  end.

Definition of_nat (n : nat) : fl := Fin (inject_Z (Z.of_nat n)).

(** ** Python values and exceptions *)

Inductive pyval : Type :=
  | PNone
  | PNum (x : fl)
  | PStr (s : string).

Inductive exn : Type := TypeError | ValueError | ProviderError.

Inductive result (A : Type) : Type :=
  | Ok (a : A)
  | Raise (e : exn).
Arguments Ok {A} a.
Arguments Raise {A} e.

#[global] Instance result_ret : MRet result := λ A, @Ok A.
#[global] Instance result_bind : MBind result := λ A B f m,
  match m with Ok a => f a | Raise e => Raise e end.

(** Truth value of a Python object: [None], zero and the empty string are
    false; NaN is true. *)
Definition truthy (v : pyval) : bool :=
  match v with
  | PNone => false
  | PNum (Fin q) => negb (Qeq_bool q 0)
  | PNum _ => true
  | PStr s => negb (String.eqb s "")
  end.

(** The operand of an ordering or arithmetic against a number: anything
    but a number raises [TypeError]. *)
Definition py_num (v : pyval) : result fl :=
  match v with
  | PNum x => Ok x
  | _ => Raise TypeError
  end.

(** [v == s] for a string literal [s]; equality never raises. *)
Definition py_eq_str (v : option pyval) (s : string) : bool :=
  match v with
  | Some (PStr s') => String.eqb s' s
  | _ => false
  end.

(** [d.get(key, dflt)] *)
Definition dict_get (d : gmap string pyval) (key : string) (dflt : pyval) : pyval :=
  default dflt (d !! key).

(** ** pandas Series operations

    A Series is the list of its values; the index plays no part. *)

Definition fsum (l : list fl) : fl := foldr fadd (Fin 0) l.

(** [Series.mean()]: NaN on an empty Series (0/0). *)
Definition fmean (l : list fl) : fl := fdiv (fsum l) (of_nat (length l)).

Definition fsqr (x : fl) : fl := fmul x x.

(** [Series.pct_change()]: the first entry has no predecessor. *)
Definition pct_change (l : list fl) : list fl :=
  match l with
  | [] => []
  | _ :: t => NaN :: zip_with (λ prev cur, fsub (fdiv cur prev) (Fin 1)) l t
  end.

(** [Series.diff()] *)
Definition diff (l : list fl) : list fl :=
  match l with
  | [] => []
  | _ :: t => NaN :: zip_with (λ prev cur, fsub cur prev) l t
  end.

(** [Series.dropna()] *)
Definition dropna (l : list fl) : list fl :=
  List.filter (λ x, negb (fisnan x)) l.

(** [Series.cumprod()] *)
Fixpoint cumprod_from (acc : fl) (l : list fl) : list fl :=
  match l with
  | [] => []
  | x :: t => let a := fmul acc x in a :: cumprod_from a t
  end.

Definition cumprod (l : list fl) : list fl :=
  match l with
  | [] => []
  | x :: t => x :: cumprod_from x t
  end.

(** The larger (smaller) of two observations, a NaN being no observation. *)
Definition fmax_skipna (cur x : fl) : fl :=
  match cur, x with
  | NaN, _ => x
  | _, NaN => cur
  | _, _ => if fltb cur x then x else cur
  end.

Definition fmin_skipna (cur x : fl) : fl :=
  match cur, x with
  | NaN, _ => x
  | _, NaN => cur
  | _, _ => if fltb x cur then x else cur
  end.

(** [Series.expanding().max()] *)
Fixpoint expanding_max_from (cur : fl) (l : list fl) : list fl :=
  match l with
  | [] => []
  | x :: t => let m := fmax_skipna cur x in m :: expanding_max_from m t
  end.

Definition expanding_max (l : list fl) : list fl := expanding_max_from NaN l.

(** [Series.min()]: NaN when there is no observation. *)
Definition series_min (l : list fl) : fl := foldl fmin_skipna NaN l.

(** [Series.rolling(window=w).agg()]: entry [i] aggregates the [w] values
    ending at [i]; it is NaN until [w] values exist.  (A NaN inside the
    window makes [fmean] and [fstd] NaN, as [min_periods = w] does.) *)
Definition rolling (w : nat) (agg : list fl → fl) (l : list fl) : list fl :=
  (λ i : nat, if (w <=? S i)%nat then agg (take w (drop (S i - w) l)) else NaN)
    <$> seq 0 (length l).

(** [s.where(cond, 0)] *)
Definition where_ (cond : fl → bool) (l : list fl) : list fl :=
  (λ x, if cond x then x else Fin 0) <$> l.

(** [s.iloc[-1] if len(s) > 0 else dflt] *)
Definition iloc_last (l : list fl) (dflt : fl) : fl := default dflt (last l).

Definition iloc_first (l : list fl) (dflt : fl) : fl := default dflt (head l).

(** [(s > 0).sum()] *)
Definition count_positive (l : list fl) : nat :=
  length (List.filter (λ x, fgtb x (Fin 0)) l).

(** The metric names of [analyze_fundamentals], provider key first. *)
Definition metrics : list (string * string) :=
  [ ("trailingPE", "pe_ratio");
    ("forwardPE", "forward_pe");
    ("priceToBook", "pb_ratio");
    ("priceToSalesTrailing12Months", "ps_ratio");
    ("enterpriseToRevenue", "ev_revenue");
    ("enterpriseToEbitda", "ev_ebitda");
    ("profitMargins", "profit_margin");
    ("operatingMargins", "operating_margin");
    ("returnOnEquity", "roe");
    ("returnOnAssets", "roa");
    ("debtToEquity", "debt_equity");
    ("currentRatio", "current_ratio");
    ("quickRatio", "quick_ratio");
    ("totalRevenue", "revenue");
    ("revenueGrowth", "revenue_growth");
    ("earningsGrowth", "earnings_growth");
    ("freeCashflow", "free_cash_flow");
    ("operatingCashflow", "operating_cash_flow") ]%string.

(** The recommendation dict of [generate_recommendation]. *)
Inductive action : Type := BUY | HOLD | SELL.
Inductive conviction_level : Type := STRONG | MODERATE | NEUTRAL | CAUTIOUS.

Record Recommendation : Type := {
  recommendation : action;
  conviction : conviction_level;
  total_score : Z;
  technical_score : Z;
  fundamental_score : Z;
  risk_score : Z;
  rationale : string;
  price_target : fl;
  stop_loss : fl;
  time_horizon : string;
  position_sizing : string
}.

(** [StockAnalyzer._fetch_data] (lines 64-73): [history] is what the
    provider's call gave, bars or an exception.  An empty history raises
    [ValueError] inside the [try]; every exception leaves the empty frame. *)
Definition _fetch_data (history : result (list Q)) : list Q :=
  let attempt :=
    data ← history;
    match data with
    | [] => Raise ValueError
    | _ => Ok data
    end in
  match attempt with
  | Ok data => data
  | Raise _ => []
  end.

(** [StockAnalyzer._fetch_info] (lines 75-80). *)
Definition _fetch_info (fetched : result (gmap string pyval)) : gmap string pyval :=
  match fetched with
  | Ok info => info
  | Raise _ => ∅
  end.

(** One turn of the metric loop of [analyze_fundamentals] (lines 238-244). *)
Definition extract_metric (info : gmap string pyval)
    (fundamentals : gmap string pyval) (m : string * string) : gmap string pyval :=
  let '(yf_key, our_key) := m in
  match dict_get info yf_key PNone with
  | PNone => fundamentals
  | PNum x => <[our_key := PNum (fround 3 x)]> fundamentals
  | value => <[our_key := value]> fundamentals
  end.

(** [StockAnalyzer.analyze_fundamentals] (lines 207-253): [info] is the
    provider's mapping. *)
Definition analyze_fundamentals (info : gmap string pyval)
  : result (gmap string pyval) :=
  let fundamentals := foldl (extract_metric info) ∅ metrics in
  match fundamentals !! "revenue", info !! "marketCap" with
  | Some revenue, Some market_cap =>
      if truthy market_cap then
        rev ← py_num revenue;
        if fgtb rev (Fin 0) then
          mc ← py_num market_cap;
          mret (<["market_cap_to_revenue" := PNum (fround 2 (fdiv mc rev))]> fundamentals)
        else mret fundamentals
      else mret fundamentals
  | _, _ => mret fundamentals
  end.

(** The provider keys whose values the engine orders or divides. *)
Definition scored_keys : list string :=
  [ "trailingPE"; "profitMargins"; "revenueGrowth"; "debtToEquity";
    "totalRevenue"; "marketCap" ]%string.

(** None of them holds a string. *)
Definition numeric_info (info : gmap string pyval) : bool :=
  forallb (λ k, match info !! k with Some (PStr _) => false | _ => true end)
          scored_keys.

(** *** The rubrics of [generate_recommendation] (lines 273-381) *)

(** Price vs moving averages (lines 275-280). *)
Definition ma_points (technicals : gmap string pyval) : Z :=
  if py_eq_str (technicals !! "ma_signal") "Bullish" then 15
  else if py_eq_str (technicals !! "ma_signal") "Bearish" then 5
  else 10.

(** RSI (lines 283-289). *)
Definition rsi_points (technicals : gmap string pyval) : result Z :=
  rsi ← py_num (dict_get technicals "rsi" (PNum (Fin 50)));
  mret (if fleb (Fin 30) rsi && fleb rsi (Fin 70) then 10
        else if fltb rsi (Fin 30) then 8
        else 4)%Z.

(** Bollinger Bands position (lines 292-298). *)
Definition bb_points (technicals : gmap string pyval) : Z :=
  if py_eq_str (technicals !! "bb_position") "Lower Band" then 10
  else if py_eq_str (technicals !! "bb_position") "Middle Range" then 7
  else 4.

(** Trend strength (lines 301-309). *)
Definition trend_points (returns : gmap string pyval) : result Z :=
  cumulative_return ← py_num (dict_get returns "cumulative_return_pct" (PNum (Fin 0)));
  mret (if fgtb cumulative_return (Fin 10) then 15
        else if fgtb cumulative_return (Fin 0) then 10
        else if fgtb cumulative_return (Fin (-10)) then 5
        else 0)%Z.

(** Valuation (lines 313-324): [if pe_ratio:] tests the truth value. *)
Definition valuation_points (fundamentals : gmap string pyval) : result Z :=
  let pe_ratio := dict_get fundamentals "pe_ratio" PNone in
  if truthy pe_ratio then
    pe ← py_num pe_ratio;
    mret (if fltb pe (Fin 15) then 15
          else if fltb pe (Fin 25) then 10
          else if fltb pe (Fin 40) then 5
          else 0)%Z
  else mret 7%Z.

(** Profitability (lines 327-335) and growth (lines 338-346) share their
    bands. *)
Definition margin_bands (x : fl) : Z :=
  if fgtb x (Fin (1 # 5)) then 10
  else if fgtb x (Fin (1 # 10)) then 7
  else if fgtb x (Fin 0) then 4
  else 0.

Definition profitability_points (fundamentals : gmap string pyval) : result Z :=
  profit_margin ← py_num (dict_get fundamentals "profit_margin" (PNum (Fin 0)));
  mret (margin_bands profit_margin).

Definition growth_points (fundamentals : gmap string pyval) : result Z :=
  revenue_growth ← py_num (dict_get fundamentals "revenue_growth" (PNum (Fin 0)));
  mret (margin_bands revenue_growth).

(** Financial health (lines 349-357). *)
Definition health_points (fundamentals : gmap string pyval) : result Z :=
  debt_equity ← py_num (dict_get fundamentals "debt_equity" (PNum (Fin 1)));
  mret (if fltb debt_equity (Fin (1 # 2)) then 15
        else if fltb debt_equity (Fin 1) then 10
        else if fltb debt_equity (Fin 2) then 5
        else 0)%Z.

(** Volatility risk (lines 360, 364-371). *)
Definition volatility_penalty (returns : gmap string pyval) : result Z :=
  volatility ← py_num (dict_get returns "annual_volatility_pct" (PNum (Fin 0)));
  mret (if fltb volatility (Fin 20) then 0
        else if fltb volatility (Fin 30) then -10
        else if fltb volatility (Fin 40) then -15
        else -25)%Z.

(** Drawdown risk (lines 361, 374-381). *)
Definition drawdown_penalty (returns : gmap string pyval) : result Z :=
  md ← py_num (dict_get returns "max_drawdown_pct" (PNum (Fin 0)));
  let max_drawdown := fabs md in
  mret (if fltb max_drawdown (Fin 10) then 0
        else if fltb max_drawdown (Fin 20) then -10
        else if fltb max_drawdown (Fin 30) then -15
        else -25)%Z.

(** The recommendation bands (lines 388-407). *)
Definition recommendation_band (total_score : Z) : action * conviction_level * string :=
  if (70 <=? total_score)%Z then
    (BUY, STRONG, "Strong technical and fundamental signals with manageable risk"%string)
  else if (50 <=? total_score)%Z then
    (BUY, MODERATE, "Favorable technical or fundamental signals with some risk concerns"%string)
  else if (30 <=? total_score)%Z then
    (HOLD, NEUTRAL, "Mixed signals with balanced risk-reward profile"%string)
  else if (10 <=? total_score)%Z then
    (HOLD, CAUTIOUS, "Weak signals with elevated risk considerations"%string)
  else
    (SELL, MODERATE, "Poor technical and fundamental signals with high risk"%string).

(** Price target and stop loss (lines 410-424). *)
Definition price_levels (technicals : gmap string pyval) (rec : action)
  : result (fl * fl) :=
  current_price ← py_num (dict_get technicals "current_price" (PNum (Fin 0)));
  mret (if fgtb current_price (Fin 0) then
          match rec with
          | BUY => (fround 2 (fmul current_price (Fin (11 # 10))),
                    fround 2 (fmul current_price (Fin (9 # 10))))
          | SELL => (fround 2 (fmul current_price (Fin (9 # 10))),
                     fround 2 (fmul current_price (Fin (11 # 10))))
          | HOLD => (fround 2 current_price,
                     fround 2 (fmul current_price (Fin (19 # 20))))
          end
        else (Fin 0, Fin 0)).

Definition position_sizing_of (rec : action) : string :=
  match rec with
  | BUY => "Moderate (3-5% of portfolio)"
  | HOLD => "Minimal (1-2%)"
  | SELL => "Avoid or Reduce"
  end.

(** The scoring body of [generate_recommendation] (lines 268-438), on the
    three mappings the method has just computed. *)
Definition score_recommendation (returns technicals fundamentals : gmap string pyval)
  : result Recommendation :=
  let t1 := ma_points technicals in
  t2 ← rsi_points technicals;
  let t3 := bb_points technicals in
  t4 ← trend_points returns;
  let technical_score := (t1 + t2 + t3 + t4)%Z in
  f1 ← valuation_points fundamentals;
  f2 ← profitability_points fundamentals;
  f3 ← growth_points fundamentals;
  f4 ← health_points fundamentals;
  let fundamental_score := (f1 + f2 + f3 + f4)%Z in
  r1 ← volatility_penalty returns;
  r2 ← drawdown_penalty returns;
  let risk_score := (r1 + r2)%Z in
  let total_score := (technical_score + fundamental_score + risk_score)%Z in
  let '(rec, conv, why) := recommendation_band total_score in
  '(target, stop) ← price_levels technicals rec;
  mret {| recommendation := rec;
          conviction := conv;
          total_score := total_score;
          technical_score := technical_score;
          fundamental_score := fundamental_score;
          risk_score := risk_score;
          rationale := why;
          price_target := target;
          stop_loss := stop;
          time_horizon := "3-6 months";
          position_sizing := position_sizing_of rec |}.

(** [100 - (100 / (1 + rs))] (line 172). *)
Definition rsi_from_rs (rs : fl) : fl :=
  fsub (Fin 100) (fdiv (Fin 100) (fadd (Fin 1) rs)).

(** The RSI column (lines 168-172). *)
Definition rsi_series (close_prices : list fl) : list fl :=
  let delta := diff close_prices in
  let gain := rolling 14 fmean (where_ (λ d, fgtb d (Fin 0)) delta) in
  let loss := rolling 14 fmean (fneg <$> where_ (λ d, fltb d (Fin 0)) delta) in
  let rs := zip_with fdiv gain loss in
  rsi_from_rs <$> rs.

(** The close-price deltas the latest RSI averages: the last 14 entries of
    [delta] (its first entry, the NaN of the first bar, counts as 0 on both
    sides). *)
Definition trailing_deltas (data : list Q) : list fl :=
  drop (length data - 14) (diff (Fin <$> data)).

(** A finite, non-negative float. *)
Definition nonneg (x : fl) : Prop := ∃ q, x = Fin q ∧ 0 <= q.

(** A finite, positive float. *)
Definition positive (x : fl) : Prop := ∃ q, x = Fin q ∧ 0 < q.

(** A float that is a number or NaN: no infinity. *)
Definition finite_or_nan (x : fl) : Prop := x = NaN ∨ ∃ q, x = Fin q.

(** The moving-average signal (line 190): a chained comparison. *)
Definition ma_signal_of (current_close current_ma20 current_ma50 current_ma200 : fl)
  : string :=
  if fgtb current_close current_ma20 && fgtb current_ma20 current_ma50
     && fgtb current_ma50 current_ma200
  then "Bullish" else "Bearish".

(** A square root to evaluate examples with: truncated to ten decimals. *)
Definition Qsqrt_trunc (q : Q) : Q :=
  inject_Z (Z.sqrt (Qfloor (q * inject_Z (10 ^ 20)))) / inject_Z (10 ^ 10).

(** A price history rising by one a day from 100. *)
Definition ramp (n : nat) : list Q := (λ i, inject_Z (100 + Z.of_nat i)) <$> seq 0 n.

(** A price history that stays at 100. *)
Definition flat (n : nat) : list Q := replicate n 100.

(** Fundamentals of a cheap, profitable, slowly growing, lightly indebted
    company. *)
Definition sound_info : gmap string pyval :=
  <["trailingPE" := PNum (Fin 12)]>
  (<["profitMargins" := PNum (Fin (1 # 4))]>
  (<["revenueGrowth" := PNum (Fin (1 # 20))]>
  (<["debtToEquity" := PNum (Fin (3 # 10))]> ∅))).


(** ** The analyzer object *)

(** [str.upper()] on ASCII text: symbols and market codes are ASCII; other
    bytes are left as they are. *)
Definition upper_ascii (c : Ascii.ascii) : Ascii.ascii :=
  let n := Ascii.nat_of_ascii c in
  if (97 <=? n)%nat && (n <=? 122)%nat then Ascii.ascii_of_nat (n - 32) else c.

Fixpoint upper (s : string) : string :=
  match s with
  | EmptyString => EmptyString
  | String c t => String (upper_ascii c) (upper t)
  end.

(** The market-data provider: [yf.Ticker(symbol).history(period, interval)]
    and [yf.Ticker(symbol).info], each giving a value or raising. *)
Record Provider : Type := {
  provider_history : string → string → string → result (list Q);
  provider_info : string → result (gmap string pyval)
}.

(** The attributes [__init__] sets on a [StockAnalyzer]. *)
Record StockAnalyzer : Type := {
  self_symbol : string;
  self_market : string;
  self_period : string;
  self_interval : string;
  self_yf_symbol : string;
  self_data : list Q;
  self_info : gmap string pyval
}.

(** The provider's ticker for a symbol (lines 45-51): the market code is
    compared as it was given. *)
Definition format_symbol (symbol market : string) : string :=
  if String.eqb market "HK" then symbol ++ ".HK"
  else if String.eqb market "CN" then symbol ++ ".SS"
  else symbol.

(** [StockAnalyzer.__init__] (lines 29-62). *)
Definition __init__ (yf : Provider) (symbol market period interval : string)
  : StockAnalyzer :=
  let yf_symbol := format_symbol symbol market in
  {| self_symbol := upper symbol;
     self_market := upper market;
     self_period := period;
     self_interval := interval;
     self_yf_symbol := yf_symbol;
     self_data := _fetch_data (provider_history yf yf_symbol period interval);
     self_info := _fetch_info (provider_info yf yf_symbol) |}.

(** [StockAnalyzer.get_basic_info] (lines 82-103). *)
Definition get_basic_info (self : StockAnalyzer) : gmap string pyval :=
  let na := PStr "N/A" in
  <["symbol" := PStr (self_symbol self)]>
  (<["name" := dict_get (self_info self) "longName" na]>
  (<["sector" := dict_get (self_info self) "sector" na]>
  (<["industry" := dict_get (self_info self) "industry" na]>
  (<["country" := dict_get (self_info self) "country" na]>
  (<["market_cap" := dict_get (self_info self) "marketCap" na]>
  (<["current_price" := dict_get (self_info self) "currentPrice" na]>
  (<["52_week_high" := dict_get (self_info self) "fiftyTwoWeekHigh" na]>
  (<["52_week_low" := dict_get (self_info self) "fiftyTwoWeekLow" na]>
  (<["dividend_yield" := dict_get (self_info self) "dividendYield" na]>
  (<["pe_ratio" := dict_get (self_info self) "trailingPE" na]>
  (<["pb_ratio" := dict_get (self_info self) "priceToBook" na]> ∅))))))))))).

(** The report dict of [generate_report]. *)
Record Report : Type := {
  basic_info : gmap string pyval;
  returns_analysis : gmap string pyval;
  technical_analysis : gmap string pyval;
  fundamental_analysis : gmap string pyval;
  trading_recommendation : Recommendation;
  analysis_date : string;
  data_period : string;
  data_points : nat
}.

(** An entry of the dict [compare_stocks] builds. *)
Record Comparison : Type := {
  cmp_basic_info : gmap string pyval;
  cmp_returns : gmap string pyval;
  cmp_recommendation : Recommendation
}.

(** A provider that knows the one ticker DEMO, to evaluate examples with. *)
Definition demo_provider (bars : list Q) (info : gmap string pyval) : Provider :=
  {| provider_history := λ symbol _ _,
       if String.eqb symbol "DEMO" then Ok bars else Raise ProviderError;
     provider_info := λ symbol,
       if String.eqb symbol "DEMO" then Ok info else Raise ProviderError |}.


Section Analyzer.

(** The square root of a non-negative rational, as the numeric library
    computes it. *)
Variable Qsqrt : Q → Q.

Definition fsqrt (x : fl) : fl :=
  match x with
  | Fin q => if Qle_bool 0 q then Fin (Qred (Qsqrt q)) else NaN
  | PInf => PInf
  | _ => NaN
  end.

(** [Series.std()]: the sample standard deviation ([ddof = 1]), NaN with
    fewer than two observations. *)
Definition fstd (l : list fl) : fl :=
  let n := length l in
  if (n <=? 1)%nat then NaN
  else
    let avg := fmean l in
    fsqrt (fdiv (fsum ((λ x, fsqr (fsub avg x)) <$> l)) (of_nat (n - 1))).

(** [StockAnalyzer.calculate_returns] (lines 105-148). *)
Definition calculate_returns (data : list Q) : gmap string pyval :=
  match data with
  | [] => ∅
  | _ =>
    let close_prices := Fin <$> data in
    let daily_returns := dropna (pct_change close_prices) in
    let cumulative_return :=
      fmul (fsub (fdiv (iloc_last close_prices NaN) (iloc_first close_prices NaN))
                 (Fin 1)) (Fin 100) in
    let annual_volatility :=
      if (1 <? length daily_returns)%nat
      then fmul (fmul (fstd daily_returns) (fsqrt (Fin 252))) (Fin 100)
      else Fin 0 in
    let sharpe_ratio :=
      if fgtb (fstd daily_returns) (Fin 0)
      then fmul (fdiv (fmean daily_returns) (fstd daily_returns)) (fsqrt (Fin 252))
      else Fin 0 in
    let cumulative := cumprod (fadd (Fin 1) <$> daily_returns) in
    let running_max := expanding_max cumulative in
    let drawdown := zip_with (λ c m, fdiv (fsub c m) m) cumulative running_max in
    let max_drawdown := fmul (series_min drawdown) (Fin 100) in
    <["cumulative_return_pct" := PNum (fround 2 cumulative_return)]>
    (<["annual_volatility_pct" := PNum (fround 2 annual_volatility)]>
    (<["sharpe_ratio" := PNum (fround 2 sharpe_ratio)]>
    (<["max_drawdown_pct" := PNum (fround 2 max_drawdown)]>
    (<["avg_daily_return_pct" := PNum (fround 3 (fmul (fmean daily_returns) (Fin 100)))]>
    (<["positive_days_pct" :=
         PNum (fround 1 (fmul (fdiv (of_nat (count_positive daily_returns))
                                    (of_nat (length daily_returns))) (Fin 100)))]>
     ∅)))))
  end.

(** [round(x, ndigits) if not pd.isna(x) else dflt] *)
Definition round_or (ndigits : nat) (x dflt : fl) : fl :=
  if negb (fisnan x) then fround ndigits x else dflt.

(** [StockAnalyzer.calculate_technical_indicators] (lines 150-205). *)
Definition calculate_technical_indicators (data : list Q) : gmap string pyval :=
  match data with
  | [] => ∅
  | _ =>
    let close_prices := Fin <$> data in
    let ma20 := rolling 20 fmean close_prices in
    let ma50 := rolling 50 fmean close_prices in
    let ma200 := rolling 200 fmean close_prices in
    let rsi := rsi_series close_prices in
    let bb_middle := rolling 20 fmean close_prices in
    let bb_std := rolling 20 fstd close_prices in
    let bb_upper := zip_with (λ m s, fadd m (fmul s (Fin 2))) bb_middle bb_std in
    let bb_lower := zip_with (λ m s, fsub m (fmul s (Fin 2))) bb_middle bb_std in
    let current_close := iloc_last close_prices (Fin 0) in
    let current_ma20 := iloc_last ma20 (Fin 0) in
    let current_ma50 := iloc_last ma50 (Fin 0) in
    let current_ma200 := iloc_last ma200 (Fin 0) in
    let current_rsi := iloc_last rsi (Fin 50) in
    let current_bb_upper := iloc_last bb_upper (Fin 0) in
    let current_bb_lower := iloc_last bb_lower (Fin 0) in
    let ma_signal := ma_signal_of current_close current_ma20 current_ma50 current_ma200 in
    let rsi_signal :=
      if fgtb current_rsi (Fin 70) then "Overbought"
      else if fltb current_rsi (Fin 30) then "Oversold" else "Neutral" in
    let bb_position :=
      if fgtb current_close current_bb_upper then "Upper Band"
      else if fltb current_close current_bb_lower then "Lower Band"
      else "Middle Range" in
    <["current_price" := PNum (fround 2 current_close)]>
    (<["ma_20" := PNum (round_or 2 current_ma20 (Fin 0))]>
    (<["ma_50" := PNum (round_or 2 current_ma50 (Fin 0))]>
    (<["ma_200" := PNum (round_or 2 current_ma200 (Fin 0))]>
    (<["rsi" := PNum (round_or 1 current_rsi (Fin 50))]>
    (<["bb_upper" := PNum (round_or 2 current_bb_upper (Fin 0))]>
    (<["bb_lower" := PNum (round_or 2 current_bb_lower (Fin 0))]>
    (<["ma_signal" := PStr ma_signal]>
    (<["rsi_signal" := PStr rsi_signal]>
    (<["bb_position" := PStr bb_position]> ∅)))))))))
  end.

(** [StockAnalyzer.generate_recommendation] (lines 255-438): [data] is the
    fetched price history, [info] the fetched fundamentals. *)
Definition generate_recommendation (data : list Q) (info : gmap string pyval)
  : result Recommendation :=
  let returns := calculate_returns data in
  let technicals := calculate_technical_indicators data in
  fundamentals ← analyze_fundamentals info;
  score_recommendation returns technicals fundamentals.

(** [StockAnalyzer.generate_report] (lines 440-458); [now] is the clock
    reading, already formatted. *)
Definition generate_report (now : string) (self : StockAnalyzer) : result Report :=
  let basic := get_basic_info self in
  let returns := calculate_returns (self_data self) in
  let technicals := calculate_technical_indicators (self_data self) in
  fundamentals ← analyze_fundamentals (self_info self);
  recommendation ← generate_recommendation (self_data self) (self_info self);
  mret {| basic_info := basic;
          returns_analysis := returns;
          technical_analysis := technicals;
          fundamental_analysis := fundamentals;
          trading_recommendation := recommendation;
          analysis_date := now;
          data_period := self_period self;
          data_points := length (self_data self) |}.

(** [analyze_stock] (lines 461-474). *)
Definition analyze_stock (yf : Provider) (now : string) (symbol market period : string)
  : result Report :=
  generate_report now (__init__ yf symbol market period "1d").

(** One turn of the loop of [compare_stocks] (lines 490-495). *)
Definition compare_entry (yf : Provider) (symbol market period : string)
  : result Comparison :=
  let analyzer := __init__ yf symbol market period "1d" in
  let basic := get_basic_info analyzer in
  let returns := calculate_returns (self_data analyzer) in
  recommendation ← generate_recommendation (self_data analyzer) (self_info analyzer);
  mret {| cmp_basic_info := basic;
          cmp_returns := returns;
          cmp_recommendation := recommendation |}.

(** [compare_stocks] (lines 476-496): [results] is the dict built so far. *)
Fixpoint compare_loop (yf : Provider) (symbols : list string) (market period : string)
    (results : gmap string Comparison) : result (gmap string Comparison) :=
  match symbols with
  | [] => mret results
  | symbol :: rest =>
      entry ← compare_entry yf symbol market period;
      compare_loop yf rest market period (<[symbol := entry]> results)
  end.

Definition compare_stocks (yf : Provider) (symbols : list string) (market period : string)
  : result (gmap string Comparison) :=
  compare_loop yf symbols market period ∅.

(** ** Predicates and helpers of the statements *)

(** A float that is a number. *)
Definition is_fin (x : fl) : Prop := ∃ q, x = Fin q.

(** A daily return above -100%. *)
Definition above_total_loss (x : fl) : Prop := ∃ q, x = Fin q ∧ -1 < q.

(** A drawdown: between -100% and 0. *)
Definition is_drawdown (x : fl) : Prop := ∃ q, x = Fin q ∧ -1 <= q <= 0.

(** What the metric loop stores for a provider value: nothing for an absent
    or [None] value, the number rounded to 3 decimals, anything else as it
    is. *)
Definition extracted (v : option pyval) : option pyval :=
  match v with
  | Some (PNum x) => Some (PNum (fround 3 x))
  | Some (PStr s) => Some (PStr s)
  | _ => None
  end.

(** The composite step of [analyze_fundamentals] (lines 247-251), on the
    metrics extracted so far. *)
Definition add_composite (fundamentals info : gmap string pyval)
  : result (gmap string pyval) :=
  match fundamentals !! "revenue", info !! "marketCap" with
  | Some revenue, Some market_cap =>
      if truthy market_cap then
        rev ← py_num revenue;
        if fgtb rev (Fin 0) then
          mc ← py_num market_cap;
          mret (<["market_cap_to_revenue" := PNum (fround 2 (fdiv mc rev))]> fundamentals)
        else mret fundamentals
      else mret fundamentals
  | _, _ => mret fundamentals
  end.

(** The largest finite double, [(2 - 2^-52) * 2^1023]. *)
Definition DBL_MAX : Q := inject_Z (2 ^ 1024 - 2 ^ 971).

(** A provider value that, if a number, is within the range of a double:
    a float is, and so is an int that converts to one.  Beyond it an int
    is still a Python number, but its true division raises
    [OverflowError], which the model does not follow. *)
Definition in_double_range (v : option pyval) : Prop :=
  match v with
  | Some (PNum (Fin q)) => Qabs q <= DBL_MAX
  | _ => True
  end.

(** A call raises (some exception). *)
Definition raises {A} (m : result A) : Prop := ∃ e, m = Raise e.

(** ** The scorer *)

(** A mapping holds nothing but a number under [key] (or nothing at all). *)
Definition numeric_at (d : gmap string pyval) (key : string) : Prop :=
  ∀ v, d !! key = Some v → ∃ x, v = PNum x.

Lemma py_num_get d key x0 :
  numeric_at d key → ∃ x, py_num (dict_get d key (PNum x0)) = Ok x.
Proof.
  unfold numeric_at, dict_get. intros Hn.
  destruct (d !! key) as [v|]; simpl; [|eauto].
  destruct (Hn v eq_refl) as [x ->]. simpl. eauto.
Qed.

Lemma bind_Ok {A B} (m : result A) (f : A → result B) b :
  m ≫= f = Ok b → ∃ a, m = Ok a ∧ f a = Ok b.
Proof. destruct m as [a|e]; simpl; [eauto | discriminate]. Qed.

Ltac inv_bind H :=
  let a := fresh "a" in
  let Ha := fresh "Ha" in
  apply bind_Ok in H; destruct H as (a & Ha & H).

Ltac monad_simpl :=
  unfold mbind, mret, result_bind, result_ret; cbn beta iota.

Ltac split_ifs := repeat case_match; try lia.

Lemma ma_points_range t : (5 ≤ ma_points t ≤ 15)%Z.
Proof. unfold ma_points. split_ifs. Qed.

Lemma bb_points_range t : (4 ≤ bb_points t ≤ 10)%Z.
Proof. unfold bb_points. split_ifs. Qed.

Lemma rsi_points_range t p : rsi_points t = Ok p → (4 ≤ p ≤ 10)%Z.
Proof. unfold rsi_points. intros H. inv_bind H. injection H as <-. split_ifs. Qed.

Lemma trend_points_range r p : trend_points r = Ok p → (0 ≤ p ≤ 15)%Z.
Proof. unfold trend_points. intros H. inv_bind H. injection H as <-. split_ifs. Qed.

Lemma valuation_points_range f p : valuation_points f = Ok p → (0 ≤ p ≤ 15)%Z.
Proof.
  unfold valuation_points. intros H. destruct (truthy _).
  - inv_bind H. injection H as <-. split_ifs.
  - injection H as <-. lia.
Qed.

Lemma margin_bands_range x : (0 ≤ margin_bands x ≤ 10)%Z.
Proof. unfold margin_bands. split_ifs. Qed.

Lemma profitability_points_range f p : profitability_points f = Ok p → (0 ≤ p ≤ 10)%Z.
Proof.
  unfold profitability_points. intros H. inv_bind H. injection H as <-.
  apply margin_bands_range.
Qed.

Lemma growth_points_range f p : growth_points f = Ok p → (0 ≤ p ≤ 10)%Z.
Proof.
  unfold growth_points. intros H. inv_bind H. injection H as <-.
  apply margin_bands_range.
Qed.

Lemma health_points_range f p : health_points f = Ok p → (0 ≤ p ≤ 15)%Z.
Proof. unfold health_points. intros H. inv_bind H. injection H as <-. split_ifs. Qed.

Lemma volatility_penalty_range r p : volatility_penalty r = Ok p → (-25 ≤ p ≤ 0)%Z.
Proof. unfold volatility_penalty. intros H. inv_bind H. injection H as <-. split_ifs. Qed.

Lemma drawdown_penalty_range r p : drawdown_penalty r = Ok p → (-25 ≤ p ≤ 0)%Z.
Proof. unfold drawdown_penalty. intros H. inv_bind H. injection H as <-. split_ifs. Qed.

(** What a returned recommendation is made of. *)
Lemma score_recommendation_Ok returns technicals fundamentals r :
  score_recommendation returns technicals fundamentals = Ok r →
  ∃ t2 t4 f1 f2 f3 f4 r1 r2 levels,
    rsi_points technicals = Ok t2 ∧ trend_points returns = Ok t4 ∧
    valuation_points fundamentals = Ok f1 ∧
    profitability_points fundamentals = Ok f2 ∧
    growth_points fundamentals = Ok f3 ∧
    health_points fundamentals = Ok f4 ∧
    volatility_penalty returns = Ok r1 ∧ drawdown_penalty returns = Ok r2 ∧
    technical_score r = (ma_points technicals + t2 + bb_points technicals + t4)%Z ∧
    fundamental_score r = (f1 + f2 + f3 + f4)%Z ∧
    risk_score r = (r1 + r2)%Z ∧
    total_score r = (technical_score r + fundamental_score r + risk_score r)%Z ∧
    (recommendation r, conviction r, rationale r) = recommendation_band (total_score r) ∧
    price_levels technicals (recommendation r) = Ok levels ∧
    (price_target r, stop_loss r) = levels.
Proof.
  unfold score_recommendation. intros H.
  do 8 inv_bind H.
  destruct (recommendation_band _) as [[rec conv] why] eqn:Hband.
  inv_bind H. destruct a7 as [target stop]. injection H as <-. simpl.
  rewrite Hband. eauto 25.
Qed.

Ltac total_rubric H x0 :=
  intros H; destruct (py_num_get _ _ x0 H) as [? Hx];
  match goal with |- ∃ p, ?f _ = _ => unfold f end;
  rewrite Hx; monad_simpl; eauto.

Lemma rsi_points_total t : numeric_at t "rsi" → ∃ p, rsi_points t = Ok p.
Proof. total_rubric H (Fin 50). Qed.

Lemma trend_points_total r :
  numeric_at r "cumulative_return_pct" → ∃ p, trend_points r = Ok p.
Proof. total_rubric H (Fin 0). Qed.

Lemma valuation_points_total f :
  (∀ v, f !! "pe_ratio" = Some v → truthy v = true → ∃ x, v = PNum x) →
  ∃ p, valuation_points f = Ok p.
Proof.
  intros H. unfold valuation_points, dict_get.
  destruct (f !! "pe_ratio") as [v|] eqn:Hv; simpl; [|eauto].
  destruct (truthy v) eqn:Ht; [|eauto].
  destruct (H v eq_refl Ht) as [x ->]. monad_simpl. simpl py_num. cbn beta iota. eauto.
Qed.

Lemma profitability_points_total f :
  numeric_at f "profit_margin" → ∃ p, profitability_points f = Ok p.
Proof. total_rubric H (Fin 0). Qed.

Lemma growth_points_total f :
  numeric_at f "revenue_growth" → ∃ p, growth_points f = Ok p.
Proof. total_rubric H (Fin 0). Qed.

Lemma health_points_total f :
  numeric_at f "debt_equity" → ∃ p, health_points f = Ok p.
Proof. total_rubric H (Fin 1). Qed.

Lemma volatility_penalty_total r :
  numeric_at r "annual_volatility_pct" → ∃ p, volatility_penalty r = Ok p.
Proof. total_rubric H (Fin 0). Qed.

Lemma drawdown_penalty_total r :
  numeric_at r "max_drawdown_pct" → ∃ p, drawdown_penalty r = Ok p.
Proof. total_rubric H (Fin 0). Qed.

Lemma price_levels_total t rec :
  numeric_at t "current_price" → ∃ p, price_levels t rec = Ok p.
Proof.
  intros H. destruct (py_num_get _ _ (Fin 0) H) as [? Hx].
  unfold price_levels. rewrite Hx. monad_simpl. eauto.
Qed.

(** The scorer returns whenever the values it orders are numbers. *)
Lemma score_recommendation_total returns technicals fundamentals :
  numeric_at technicals "rsi" → numeric_at technicals "current_price" →
  numeric_at returns "cumulative_return_pct" →
  numeric_at returns "annual_volatility_pct" →
  numeric_at returns "max_drawdown_pct" →
  (∀ v, fundamentals !! "pe_ratio" = Some v → truthy v = true → ∃ x, v = PNum x) →
  numeric_at fundamentals "profit_margin" →
  numeric_at fundamentals "revenue_growth" →
  numeric_at fundamentals "debt_equity" →
  ∃ r, score_recommendation returns technicals fundamentals = Ok r.
Proof.
  intros H1 H2 H3 H4 H5 H6 H7 H8 H9. unfold score_recommendation.
  destruct (rsi_points_total _ H1) as [t2 ->].
  destruct (trend_points_total _ H3) as [t4 ->].
  destruct (valuation_points_total _ H6) as [f1 ->].
  destruct (profitability_points_total _ H7) as [f2 ->].
  destruct (growth_points_total _ H8) as [f3 ->].
  destruct (health_points_total _ H9) as [f4 ->].
  destruct (volatility_penalty_total _ H4) as [r1 ->].
  destruct (drawdown_penalty_total _ H5) as [r2 ->].
  monad_simpl. destruct (recommendation_band _) as [[rec conv] why].
  destruct (price_levels_total _ rec H2) as [[target stop] ->].
  monad_simpl. eauto.
Qed.


(** ** The mappings the engine computes hold numbers where it orders them *)

Ltac lookup_cases H :=
  repeat (apply lookup_insert_Some in H as [[_ <-]|[_ H]]; [eauto|]);
  try (rewrite lookup_empty in H; discriminate H).

Lemma calculate_returns_numeric data key :
  numeric_at (calculate_returns data) key.
Proof.
  intros v Hv. unfold calculate_returns in Hv.
  destruct data as [|c data]; cbv beta iota zeta in Hv; lookup_cases Hv.
Qed.

Lemma technicals_rsi_numeric data :
  numeric_at (calculate_technical_indicators data) "rsi".
Proof.
  intros v Hv. unfold calculate_technical_indicators in Hv.
  destruct data as [|c data]; cbv beta iota zeta in Hv; [by rewrite lookup_empty in Hv|].
  repeat (rewrite lookup_insert_ne in Hv by done).
  rewrite lookup_insert_eq in Hv. injection Hv as <-. eauto.
Qed.

Lemma technicals_price_numeric data :
  numeric_at (calculate_technical_indicators data) "current_price".
Proof.
  intros v Hv. unfold calculate_technical_indicators in Hv.
  destruct data as [|c data]; cbv beta iota zeta in Hv; [by rewrite lookup_empty in Hv|].
  rewrite lookup_insert_eq in Hv. injection Hv as <-. eauto.
Qed.

(** ** The fundamentals extractor *)

(** An extracted metric comes from the provider's value under its key. *)
Lemma extract_metric_lookup info ms acc key v :
  foldl (extract_metric info) acc ms !! key = Some v →
  acc !! key = Some v ∨
  ∃ yf_key, (yf_key, key) ∈ ms ∧
    ((∃ x, info !! yf_key = Some (PNum x) ∧ v = PNum (fround 3 x)) ∨
     (∃ s, info !! yf_key = Some (PStr s) ∧ v = PStr s)).
Proof.
  revert acc. induction ms as [|[yf our] ms IH]; intros acc H; simpl in H; [by left|].
  apply IH in H as [H|(yf' & Hin & H)].
  - unfold extract_metric, dict_get in H.
    destruct (info !! yf) as [[|x|s]|] eqn:Hyf; simpl in H; try by left.
    + apply lookup_insert_Some in H as [[<- <-]|[_ H]]; [|by left].
      right. exists yf. split; [left|]. eauto.
    + apply lookup_insert_Some in H as [[<- <-]|[_ H]]; [|by left].
      right. exists yf. split; [left|]. eauto.
  - right. exists yf'. split; [by right|done].
Qed.

Lemma numeric_info_spec info key s :
  numeric_info info = true → In key scored_keys → info !! key ≠ Some (PStr s).
Proof.
  unfold numeric_info. rewrite forallb_forall. intros H Hin Hs.
  specialize (H key Hin). by rewrite Hs in H.
Qed.

Ltac metric_key Hin :=
  unfold metrics in Hin;
  repeat (apply elem_of_cons in Hin as [Hin|Hin];
          [try discriminate Hin; injection Hin as ->|]);
  try (apply elem_of_nil in Hin; destruct Hin).

(** The metrics the engine orders are numbers when the provider's are. *)
Lemma extracted_numeric info key :
  numeric_info info = true →
  In key ["pe_ratio"; "profit_margin"; "revenue_growth"; "debt_equity"; "revenue"]%string →
  numeric_at (foldl (extract_metric info) ∅ metrics) key.
Proof.
  intros Hinfo Hkey v Hv.
  apply extract_metric_lookup in Hv as [Hv|(yf & Hin & [(x & _ & ->)|(s & Hs & ->)])];
    [by rewrite lookup_empty in Hv|eauto|].
  exfalso. simpl in Hkey.
  destruct Hkey as [<-|[<-|[<-|[<-|[<-|[]]]]]]; metric_key Hin;
    (eapply numeric_info_spec; [exact Hinfo| |exact Hs]); simpl; tauto.
Qed.

Lemma analyze_fundamentals_total info :
  numeric_info info = true →
  ∃ f, analyze_fundamentals info = Ok f ∧
       ∀ key, In key ["pe_ratio"; "profit_margin"; "revenue_growth"; "debt_equity"]%string →
              numeric_at f key.
Proof.
  intros Hinfo. unfold analyze_fundamentals.
  set (f0 := foldl (extract_metric info) ∅ metrics).
  assert (Hf0 : ∀ key,
    In key ["pe_ratio"; "profit_margin"; "revenue_growth"; "debt_equity"]%string →
    numeric_at f0 key).
  { intros key Hk. apply extracted_numeric; [done|].
    destruct Hk as [<-|[<-|[<-|[<-|[]]]]]; cbn [In]; tauto. }
  destruct (f0 !! "revenue") as [revenue|] eqn:Hrev; [|eauto].
  destruct (info !! "marketCap") as [market_cap|] eqn:Hmc; [|eauto].
  destruct (truthy market_cap) eqn:Ht; [|eauto].
  destruct (extracted_numeric info "revenue" Hinfo ltac:(simpl; tauto) _ Hrev) as [rev ->].
  monad_simpl. simpl py_num. cbn beta iota.
  destruct (fgtb rev (Fin 0)); [|eauto].
  destruct market_cap as [|mc|s]; [discriminate Ht| |].
  - monad_simpl. simpl py_num. cbn beta iota. eexists. split; [done|].
    intros key Hk v Hv. apply (Hf0 key Hk v).
    rewrite lookup_insert_ne in Hv; [done|].
    simpl in Hk. destruct Hk as [<-|[<-|[<-|[<-|[]]]]]; done.
  - exfalso. eapply (numeric_info_spec info "marketCap" s); [done| |done]. simpl; tauto.
Qed.

(** [generate_recommendation] returns for every price history, whenever
    the provider's scored metrics are numbers (or absent). *)
Lemma generate_recommendation_total data info :
  numeric_info info = true → ∃ r, generate_recommendation data info = Ok r.
Proof.
  intros Hinfo. unfold generate_recommendation.
  destruct (analyze_fundamentals_total info Hinfo) as (f & -> & Hf). monad_simpl.
  apply score_recommendation_total;
    auto using technicals_rsi_numeric, technicals_price_numeric, calculate_returns_numeric.
  - intros v Hv _. apply (Hf "pe_ratio"); [simpl; tauto|done].
  - apply Hf. simpl; tauto.
  - apply Hf. simpl; tauto.
  - apply Hf. simpl; tauto.
Qed.

Lemma generate_recommendation_Ok data info r :
  generate_recommendation data info = Ok r →
  ∃ f, analyze_fundamentals info = Ok f ∧
       score_recommendation (calculate_returns data)
         (calculate_technical_indicators data) f = Ok r.
Proof. unfold generate_recommendation. intros H. by apply bind_Ok in H. Qed.

(** The scores of a returned recommendation stay in their ranges. *)
Lemma score_ranges returns technicals fundamentals r :
  score_recommendation returns technicals fundamentals = Ok r →
  (13 ≤ technical_score r ≤ 50)%Z ∧ (0 ≤ fundamental_score r ≤ 50)%Z ∧
  (-50 ≤ risk_score r ≤ 0)%Z ∧ (-37 ≤ total_score r ≤ 100)%Z.
Proof.
  intros H. apply score_recommendation_Ok in H
    as (t2 & t4 & f1 & f2 & f3 & f4 & r1 & r2 & lv & Ht2 & Ht4 & Hf1 & Hf2 & Hf3 &
        Hf4 & Hr1 & Hr2 & -> & -> & -> & -> & _).
  pose proof (ma_points_range technicals). pose proof (bb_points_range technicals).
  apply rsi_points_range in Ht2. apply trend_points_range in Ht4.
  apply valuation_points_range in Hf1. apply profitability_points_range in Hf2.
  apply growth_points_range in Hf3. apply health_points_range in Hf4.
  apply volatility_penalty_range in Hr1. apply drawdown_penalty_range in Hr2.
  lia.
Qed.

(** ** Rolling windows *)

Lemma rolling_length w agg l : length (rolling w agg l) = length l.
Proof. unfold rolling. by rewrite length_fmap, length_seq. Qed.

(** The latest entry of a rolling aggregate. *)
Lemma rolling_last w agg l :
  l ≠ [] →
  last (rolling w agg l) =
    Some (if (w <=? length l)%nat then agg (take w (drop (length l - w) l)) else NaN).
Proof.
  intros Hl. unfold rolling.
  destruct (length l) as [|n] eqn:Hn; [by destruct l|].
  rewrite seq_S, fmap_app. cbn [fmap list_fmap]. by rewrite last_snoc.
Qed.

Lemma rolling_iloc_last w agg l dflt :
  l ≠ [] →
  iloc_last (rolling w agg l) dflt =
    if (w <=? length l)%nat then agg (take w (drop (length l - w) l)) else NaN.
Proof. intros Hl. unfold iloc_last. by rewrite rolling_last. Qed.

Lemma rolling_short w agg l dflt :
  l ≠ [] → (length l < w)%nat → iloc_last (rolling w agg l) dflt = NaN.
Proof.
  intros Hl Hw. rewrite rolling_iloc_last by done.
  destruct (Nat.leb_spec w (length l)); [lia|done].
Qed.

Lemma ma_signal_of_nan c m20 m50 : ma_signal_of c m20 m50 NaN = "Bearish".
Proof.
  unfold ma_signal_of, fgtb.
  destruct (fltb m20 c), (fltb m50 m20); simpl; done.
Qed.

Lemma ma_signal_of_cases c m20 m50 m200 :
  ma_signal_of c m20 m50 m200 = "Bullish" ∨ ma_signal_of c m20 m50 m200 = "Bearish".
Proof. unfold ma_signal_of. destruct (_ && _); auto. Qed.

Lemma technicals_ma_signal data :
  data ≠ [] →
  calculate_technical_indicators data !! "ma_signal" =
    Some (PStr (ma_signal_of
      (iloc_last (Fin <$> data) (Fin 0))
      (iloc_last (rolling 20 fmean (Fin <$> data)) (Fin 0))
      (iloc_last (rolling 50 fmean (Fin <$> data)) (Fin 0))
      (iloc_last (rolling 200 fmean (Fin <$> data)) (Fin 0)))).
Proof.
  intros Hd. unfold calculate_technical_indicators.
  destruct data as [|c data]; [done|]. cbv zeta.
  repeat (rewrite lookup_insert_ne by done). by rewrite lookup_insert_eq.
Qed.

Lemma technicals_rsi data :
  data ≠ [] →
  calculate_technical_indicators data !! "rsi" =
    Some (PNum (round_or 1 (iloc_last (rsi_series (Fin <$> data)) (Fin 50)) (Fin 50))).
Proof.
  intros Hd. unfold calculate_technical_indicators.
  destruct data as [|c data]; [done|]. cbv zeta.
  repeat (rewrite lookup_insert_ne by done). by rewrite lookup_insert_eq.
Qed.

(** ** Arithmetic on rationals in lowest terms *)

Lemma Qred_zero q : q == 0 → Qred q = 0.
Proof. intros H. by apply Qred_complete in H. Qed.

Lemma Qred_one q : q == 1 → Qred q = 1.
Proof. intros H. by apply Qred_complete in H. Qed.

Lemma Qeq_bool_false q : ¬ q == 0 → Qeq_bool q 0 = false.
Proof.
  intros H. destruct (Qeq_bool q 0) eqn:E; [|done].
  by apply Qeq_bool_eq in E.
Qed.

Lemma fdiv_same a b c : a == c → b == c → ¬ c == 0 → fdiv (Fin a) (Fin b) = Fin 1.
Proof.
  intros Ha Hb Hc. unfold fdiv.
  rewrite Qeq_bool_false by (by rewrite Hb).
  f_equal. apply Qred_one. rewrite Ha, Hb. by field.
Qed.

Lemma fmul_zero_l q : fmul (Fin 0) (Fin q) = Fin 0.
Proof. reflexivity. Qed.

Lemma of_nat_nonzero k : k ≠ O → ¬ inject_Z (Z.of_nat k) == 0.
Proof.
  intros Hk H. unfold Qeq in H. simpl in H. lia.
Qed.

Lemma fdiv_zero_nat k : k ≠ O → fdiv (Fin 0) (of_nat k) = Fin 0.
Proof.
  intros Hk. unfold fdiv, of_nat.
  by rewrite Qeq_bool_false by (by apply of_nat_nonzero).
Qed.

(** ** Rounding keeps integer bounds *)

Lemma rint_lower n x : inject_Z n <= x → (n ≤ rint x)%Z.
Proof.
  intros H. apply Qfloor_resp_le in H. rewrite Qfloor_Z in H.
  unfold rint. destruct (Qcompare _ _); [destruct (Z.even _)|..]; lia.
Qed.

Lemma rint_upper n x : x <= inject_Z n → (rint x ≤ n)%Z.
Proof.
  intros H. pose proof (Qfloor_resp_le _ _ H) as Hf. rewrite Qfloor_Z in Hf.
  assert (Hstep : inject_Z (Qfloor x) < x → (Qfloor x + 1 ≤ n)%Z).
  { intros Hlt. assert (Qfloor x < n)%Z; [|lia]. rewrite Zlt_Qlt. lra. }
  unfold rint.
  destruct (Qcompare_spec (x - inject_Z (Qfloor x)) (1 # 2)) as [E|E|E].
  - destruct (Z.even _); [lia|]. apply Hstep. lra.
  - lia.
  - apply Hstep. lra.
Qed.

Lemma Qround1_range r : 0 <= r <= 100 → 0 <= Qround 1 r <= 100.
Proof.
  intros [H0 H100]. unfold Qround. rewrite Qred_correct.
  change (inject_Z (10 ^ Z.of_nat 1)) with (inject_Z 10).
  assert (Hlo : (0 ≤ rint (r * inject_Z 10))%Z).
  { apply rint_lower. change (inject_Z 0) with 0. change (inject_Z 10) with 10. lra. }
  assert (Hhi : (rint (r * inject_Z 10) ≤ 1000)%Z).
  { apply rint_upper. change (inject_Z 1000) with 1000. change (inject_Z 10) with 10. lra. }
  rewrite Zle_Qle in Hlo, Hhi.
  change (inject_Z 0) with 0 in Hlo. change (inject_Z 1000) with 1000 in Hhi.
  change (inject_Z 10) with 10 at 2 4.
  set (z := inject_Z (rint (r * inject_Z 10))) in *.
  split.
  - apply Qle_shift_div_l; lra.
  - apply Qle_shift_div_r; lra.
Qed.

(** ** A flat price history *)

Lemma returns_of_flat c a l :
  ¬ c == 0 → a == c → Forall (λ x, x == c) l →
  zip_with (λ prev cur, fsub (fdiv cur prev) (Fin 1)) (Fin <$> a :: l) (Fin <$> l)
  = replicate (length l) (Fin 0).
Proof.
  intros Hc Ha Hl. revert a Ha.
  induction Hl as [|b l Hb Hl IH]; intros a Ha; [done|].
  cbn [fmap list_fmap zip_with length replicate].
  rewrite (fdiv_same b a c) by done.
  f_equal. apply (IH b Hb).
Qed.

Lemma dropna_zeros k : dropna (replicate k (Fin 0)) = replicate k (Fin 0).
Proof. induction k as [|k IH]; [done|]. simpl. by rewrite IH. Qed.

Lemma fsum_zeros k : fsum (replicate k (Fin 0)) = Fin 0.
Proof. induction k as [|k IH]; [done|]. simpl. by rewrite IH. Qed.

Lemma fmean_zeros k : k ≠ O → fmean (replicate k (Fin 0)) = Fin 0.
Proof.
  intros Hk. unfold fmean. rewrite fsum_zeros, length_replicate.
  by apply fdiv_zero_nat.
Qed.

Lemma fstd_short l : (length l ≤ 1)%nat → fstd l = NaN.
Proof.
  intros Hl. unfold fstd. by destruct (Nat.leb_spec (length l) 1); [|lia].
Qed.

Lemma cumprod_from_ones k :
  cumprod_from (Fin 1) (replicate k (Fin 1)) = replicate k (Fin 1).
Proof.
  induction k as [|k IH]; [done|]. cbn [replicate cumprod_from].
  change (fmul (Fin 1) (Fin 1)) with (Fin 1). by rewrite IH.
Qed.

Lemma cumprod_ones k : cumprod (replicate k (Fin 1)) = replicate k (Fin 1).
Proof.
  destruct k as [|k]; [done|]. cbn [replicate cumprod].
  by rewrite cumprod_from_ones.
Qed.

Lemma expanding_max_from_ones k :
  expanding_max_from (Fin 1) (replicate k (Fin 1)) = replicate k (Fin 1).
Proof.
  induction k as [|k IH]; [done|]. cbn [replicate expanding_max_from].
  change (fmax_skipna (Fin 1) (Fin 1)) with (Fin 1). by rewrite IH.
Qed.

Lemma expanding_max_ones k : expanding_max (replicate k (Fin 1)) = replicate k (Fin 1).
Proof.
  destruct k as [|k]; [done|]. unfold expanding_max. cbn [replicate expanding_max_from].
  change (fmax_skipna NaN (Fin 1)) with (Fin 1). by rewrite expanding_max_from_ones.
Qed.

Lemma foldl_min_zeros k : foldl fmin_skipna (Fin 0) (replicate k (Fin 0)) = Fin 0.
Proof.
  induction k as [|k IH]; [done|]. cbn [replicate foldl].
  by change (fmin_skipna (Fin 0) (Fin 0)) with (Fin 0).
Qed.

Lemma series_min_zeros k : k ≠ O → series_min (replicate k (Fin 0)) = Fin 0.
Proof.
  destruct k as [|k]; [done|]. intros _. unfold series_min. cbn [replicate foldl].
  change (fmin_skipna NaN (Fin 0)) with (Fin 0). apply foldl_min_zeros.
Qed.

Lemma iloc_last_flat c l dflt :
  l ≠ [] → Forall (λ x, x == c) l →
  ∃ z, iloc_last (Fin <$> l) dflt = Fin z ∧ z == c.
Proof.
  intros Hl Hc. unfold iloc_last. rewrite fmap_last.
  destruct (last l) as [z|] eqn:Hz.
  - exists z. split; [done|].
    apply last_Some in Hz as [l' ->]. apply Forall_app in Hc as [_ Hc].
    inversion Hc; subst; assumption.
  - by apply last_None in Hz.
Qed.

Lemma fsqrt_zero : Qsqrt 0 == 0 → fsqrt (Fin 0) = Fin 0.
Proof. intros H. unfold fsqrt. cbn [Qle_bool Qnum Qden Z.leb Z.mul Z.compare]. by rewrite (Qred_zero _ H). Qed.

Lemma fstd_zeros k :
  Qsqrt 0 == 0 → (2 ≤ k)%nat → fstd (replicate k (Fin 0)) = Fin 0.
Proof.
  intros Hs Hk. unfold fstd. rewrite length_replicate.
  destruct (Nat.leb_spec k 1); [lia|].
  rewrite fmean_zeros by lia. rewrite fmap_replicate.
  change (fsqr (fsub (Fin 0) (Fin 0))) with (Fin 0).
  rewrite fsum_zeros, fdiv_zero_nat by lia. by apply fsqrt_zero.
Qed.

(** The daily returns of a flat history are all zero. *)
Lemma daily_returns_flat c a l :
  ¬ c == 0 → a == c → Forall (λ x, x == c) l →
  dropna (pct_change (Fin <$> a :: l)) = replicate (length l) (Fin 0).
Proof.
  intros Hc Ha Hl. rewrite fmap_cons. unfold pct_change.
  rewrite <- fmap_cons, (returns_of_flat c) by done.
  change (dropna (NaN :: ?x)) with (dropna x). apply dropna_zeros.
Qed.

(** ** The claims on the scorer *)

(** C1. Action and conviction are a step function of [total_score], read
    top-down: at least 70 is BUY/STRONG, at least 50 BUY/MODERATE, at least
    30 HOLD/NEUTRAL, at least 10 HOLD/CAUTIOUS, anything lower
    SELL/MODERATE; so 75, 55, 35, 15 and 5 fall in the five bands in turn. *)
Theorem C1_recommendation_is_step_function data info r :
  generate_recommendation data info = Ok r →
  (recommendation r, conviction r) = (recommendation_band (total_score r)).1 ∧
  ((70 ≤ total_score r)%Z → recommendation r = BUY ∧ conviction r = STRONG) ∧
  ((50 ≤ total_score r < 70)%Z → recommendation r = BUY ∧ conviction r = MODERATE) ∧
  ((30 ≤ total_score r < 50)%Z → recommendation r = HOLD ∧ conviction r = NEUTRAL) ∧
  ((10 ≤ total_score r < 30)%Z → recommendation r = HOLD ∧ conviction r = CAUTIOUS) ∧
  ((total_score r < 10)%Z → recommendation r = SELL ∧ conviction r = MODERATE) ∧
  (recommendation_band 75).1 = (BUY, STRONG) ∧
  (recommendation_band 55).1 = (BUY, MODERATE) ∧
  (recommendation_band 35).1 = (HOLD, NEUTRAL) ∧
  (recommendation_band 15).1 = (HOLD, CAUTIOUS) ∧
  (recommendation_band 5).1 = (SELL, MODERATE).
Proof.
  intros H. apply generate_recommendation_Ok in H as (f & _ & H).
  apply score_recommendation_Ok in H
    as (? & ? & ? & ? & ? & ? & ? & ? & ? & _ & _ & _ & _ & _ & _ & _ & _ & _ & _ & _ &
        _ & Hband & _).
  assert (Hrc : (recommendation r, conviction r) = (recommendation_band (total_score r)).1)
    by (by rewrite <- Hband).
  split; [exact Hrc|].
  unfold recommendation_band in Hrc.
  repeat (apply conj); try reflexivity; intros Hs;
    repeat match type of Hrc with
      | context [(?a <=? ?b)%Z] => destruct (Z.leb_spec a b); try lia
      end;
    cbn [fst] in Hrc; split; congruence.
Qed.

(** C2. Whatever the price history and the fundamentals, a returned
    recommendation has its [total_score] in [-50, 100]; and one is returned
    whenever the scored fundamentals are numbers or absent. *)
Theorem C2_total_score_range data info :
  (numeric_info info = true → ∃ r, generate_recommendation data info = Ok r) ∧
  (∀ r, generate_recommendation data info = Ok r → (-50 ≤ total_score r ≤ 100)%Z).
Proof.
  split; [apply generate_recommendation_total|].
  intros r H. apply generate_recommendation_Ok in H as (f & _ & H).
  apply score_ranges in H. lia.
Qed.

Lemma analyze_fundamentals_empty : analyze_fundamentals ∅ = Ok ∅.
Proof. reflexivity. Qed.

Lemma numeric_info_empty : numeric_info ∅ = true.
Proof. reflexivity. Qed.

(** C3 (amended). With no fundamentals at all [generate_recommendation]
    returns, and its [fundamental_score] is 12: 7 for the missing P/E, 0 for
    profitability, 0 for growth, and 5 for financial health, the default
    debt/equity of 1 being not below 1 but below 2. *)
Theorem C3_empty_fundamentals_score data :
  ∃ r, generate_recommendation data ∅ = Ok r ∧
       fundamental_score r = 12%Z ∧
       valuation_points ∅ = Ok 7%Z ∧ profitability_points ∅ = Ok 0%Z ∧
       growth_points ∅ = Ok 0%Z ∧ health_points ∅ = Ok 5%Z.
Proof.
  destruct (generate_recommendation_total data ∅ numeric_info_empty) as [r Hr].
  exists r. split; [done|]. split; [|done].
  apply generate_recommendation_Ok in Hr as (f & Hf & Hr).
  rewrite analyze_fundamentals_empty in Hf. injection Hf as <-.
  apply score_recommendation_Ok in Hr
    as (? & ? & f1 & f2 & f3 & f4 & ? & ? & ? & _ & _ & Hf1 & Hf2 & Hf3 & Hf4 & _ & _ &
        _ & -> & _).
  vm_compute in Hf1, Hf2, Hf3, Hf4.
  injection Hf1 as <-. injection Hf2 as <-. injection Hf3 as <-. injection Hf4 as <-.
  reflexivity.
Qed.

Lemma fetch_data_failed history :
  history = Ok [] ∨ (∃ e, history = Raise e) → _fetch_data history = [].
Proof. by intros [->|[e ->]]. Qed.


(** C7 (amended). For a non-empty price history the [ma_signal] the scorer
    reads is "Bullish" or "Bearish" and the rubric gives 15 or 5; for an
    empty one the technical mapping has no [ma_signal] and the rubric's
    last branch gives its 10 points. *)
Theorem C7_ma_signal_branches data :
  data ≠ [] →
  ((calculate_technical_indicators data !! "ma_signal" = Some (PStr "Bullish") ∧
    ma_points (calculate_technical_indicators data) = 15%Z) ∨
   (calculate_technical_indicators data !! "ma_signal" = Some (PStr "Bearish") ∧
    ma_points (calculate_technical_indicators data) = 5%Z)) ∧
  calculate_technical_indicators [] !! "ma_signal" = None ∧
  ma_points (calculate_technical_indicators []) = 10%Z.
Proof.
  intros Hd. split; [|done].
  unfold ma_points. rewrite (technicals_ma_signal data Hd).
  destruct (ma_signal_of_cases
    (iloc_last (Fin <$> data) (Fin 0))
    (iloc_last (rolling 20 fmean (Fin <$> data)) (Fin 0))
    (iloc_last (rolling 50 fmean (Fin <$> data)) (Fin 0))
    (iloc_last (rolling 200 fmean (Fin <$> data)) (Fin 0))) as [-> | ->]; auto.
Qed.

(** C9. A [pe_ratio] of exactly 0 in the fundamentals is scored as a
    missing one: the valuation rubric gives 7, as it does for the mapping
    without the metric, although 0 is below 15 and every other P/E below
    15 put in its place earns the 15 points; the whole recommendation is
    the one of the mapping without the metric. *)
Theorem C9_zero_pe_scored_as_missing returns technicals fundamentals q :
  fundamentals !! "pe_ratio" = Some (PNum (Fin q)) → q == 0 →
  valuation_points fundamentals = Ok 7%Z ∧
  valuation_points (delete "pe_ratio" fundamentals) = Ok 7%Z ∧
  fltb (Fin q) (Fin 15) = true ∧
  (∀ p, ¬ p == 0 → p < 15 →
     valuation_points (<["pe_ratio" := PNum (Fin p)]> fundamentals) = Ok 15%Z) ∧
  score_recommendation returns technicals fundamentals =
    score_recommendation returns technicals (delete "pe_ratio" fundamentals).
Proof.
  intros Hpe Hq.
  assert (Hv : valuation_points fundamentals = Ok 7%Z).
  { unfold valuation_points, dict_get. rewrite Hpe. simpl.
    apply Qeq_bool_iff in Hq. by rewrite Hq. }
  assert (Hv' : valuation_points (delete "pe_ratio" fundamentals) = Ok 7%Z).
  { unfold valuation_points, dict_get. by rewrite lookup_delete_eq. }
  split; [done|]. split; [done|]. split; [|split].
  - simpl. destruct (Qcompare_spec q 15) as [H|H|H]; [| done |]; rewrite Hq in H; lra.
  - intros p Hp Hlt. unfold valuation_points, dict_get. rewrite lookup_insert_eq.
    cbn [default from_option id truthy]. rewrite (Qeq_bool_false p Hp).
    cbn [negb py_num]. monad_simpl. cbn [fltb].
    by destruct (Qcompare_spec p 15) as [H|H|H]; [lra| |lra].
  - unfold score_recommendation. rewrite Hv, Hv'.
    unfold profitability_points, growth_points, health_points, dict_get.
    by rewrite !lookup_delete_ne.
Qed.

(** C10. A non-empty price history of fewer than 200 bars has
    [ma_signal = "Bearish"] whatever its prices: the 200-bar average is NaN
    at the latest bar and the chained comparison fails on it. *)
Theorem C10_short_history_is_bearish data :
  data ≠ [] → (length data < 200)%nat →
  calculate_technical_indicators data !! "ma_signal" = Some (PStr "Bearish").
Proof.
  intros Hd Hlen. rewrite (technicals_ma_signal data Hd).
  rewrite (rolling_short 200).
  - by rewrite ma_signal_of_nan.
  - by destruct data.
  - by rewrite length_fmap.
Qed.

(** ** The RSI *)

Lemma last_zip_with {A B C} (f : A → B → C) (l : list A) (k : list B) :
  length l = length k →
  last (zip_with f l k) =
    match last l, last k with Some x, Some y => Some (f x y) | _, _ => None end.
Proof.
  intros Hlen. rewrite !last_lookup, lookup_zip_with.
  rewrite length_zip_with_l_eq by done. rewrite <- Hlen.
  by destruct (l !! _), (k !! _).
Qed.

Lemma diff_length l : length (diff l) = length l.
Proof.
  destruct l as [|x l]; [done|]. unfold diff. cbn [length].
  rewrite length_zip_with. cbn [length]. lia.
Qed.

Lemma diff_finite data : Forall finite_or_nan (diff (Fin <$> data)).
Proof.
  destruct data as [|a l]; [constructor|]. rewrite fmap_cons. unfold diff.
  constructor; [by left|]. revert a.
  induction l as [|b l IH]; intros a; [constructor|].
  rewrite fmap_cons. cbn [zip_with]. constructor; [|apply IH].
  right. by eexists.
Qed.

Lemma gains_nonneg W :
  Forall finite_or_nan W → Forall nonneg (where_ (λ d, fgtb d (Fin 0)) W).
Proof.
  unfold where_. induction 1 as [|x W Hx _ IH]; [constructor|].
  rewrite fmap_cons. constructor; [|exact IH].
  destruct Hx as [->|[q ->]]; [by exists 0|].
  unfold fgtb, fltb. destruct (Qcompare_spec 0 q) as [E|E|E].
  - by exists 0.
  - exists q. split; [done|lra].
  - by exists 0.
Qed.

Lemma losses_nonneg W :
  Forall finite_or_nan W →
  Forall nonneg (fneg <$> where_ (λ d, fltb d (Fin 0)) W).
Proof.
  unfold where_. induction 1 as [|x W Hx _ IH]; [constructor|].
  rewrite !fmap_cons. constructor; [|exact IH].
  destruct Hx as [->|[q ->]]; [by exists 0|].
  unfold fltb. destruct (Qcompare_spec q 0) as [E|E|E].
  - by exists 0.
  - exists (Qred (- q)). split; [done|]. rewrite Qred_correct. lra.
  - by exists 0.
Qed.

Lemma gains_positive W :
  Forall finite_or_nan W → Exists (λ d, fgtb d (Fin 0) = true) W →
  Exists positive (where_ (λ d, fgtb d (Fin 0)) W).
Proof.
  unfold where_. intros HW. induction 1 as [x W Hx|x W _ IH].
  - rewrite fmap_cons. left. rewrite Hx.
    apply Forall_cons in HW as [[->|[q ->]] _]; [done|].
    exists q. split; [done|]. unfold fgtb, fltb in Hx.
    by destruct (Qcompare_spec 0 q).
  - rewrite fmap_cons. right. apply IH. by apply Forall_cons in HW as [_ HW].
Qed.

Lemma gains_zero W :
  Forall (λ d, fgtb d (Fin 0) = false) W →
  where_ (λ d, fgtb d (Fin 0)) W = replicate (length W) (Fin 0).
Proof.
  unfold where_. induction 1 as [|x W Hx _ IH]; [done|].
  rewrite fmap_cons, Hx, IH. done.
Qed.

Lemma losses_zero W :
  Forall (λ d, fltb d (Fin 0) = false) W →
  fneg <$> where_ (λ d, fltb d (Fin 0)) W = replicate (length W) (Fin 0).
Proof.
  unfold where_. induction 1 as [|x W Hx _ IH]; [done|].
  rewrite !fmap_cons, Hx, IH. done.
Qed.

Lemma fsum_nonneg l :
  Forall nonneg l → ∃ s, fsum l = Fin s ∧ 0 <= s ∧ (Exists positive l → 0 < s).
Proof.
  induction 1 as [|x l (q & -> & Hq) _ (s & Hs & Hs0 & Hpos)].
  - exists 0. split; [done|]. split; [lra|]. by intros ?%Exists_nil.
  - exists (Qred (q + s)). cbn [fsum foldr]. fold (fsum l). rewrite Hs.
    split; [done|]. rewrite Qred_correct. split; [lra|].
    intros [(q' & [= <-] & Hq')|Hl]%Exists_cons; [lra|].
    specialize (Hpos Hl). lra.
Qed.

Lemma inject_nat_pos k : k ≠ O → 0 < inject_Z (Z.of_nat k).
Proof. intros Hk. change 0 with (inject_Z 0). rewrite <- Zlt_Qlt. lia. Qed.

Lemma fmean_nonneg l :
  l ≠ [] → Forall nonneg l →
  ∃ m, fmean l = Fin m ∧ 0 <= m ∧ (Exists positive l → 0 < m).
Proof.
  intros Hl (s & Hs & Hs0 & Hpos)%fsum_nonneg.
  assert (Hk : length l ≠ O) by (by destruct l).
  pose proof (inject_nat_pos _ Hk) as Hk0.
  exists (Qred (s / inject_Z (Z.of_nat (length l)))).
  unfold fmean, of_nat, fdiv. rewrite Hs.
  rewrite Qeq_bool_false by (by apply of_nat_nonzero).
  split; [done|]. rewrite Qred_correct. split.
  - apply Qle_shift_div_l; [done|]. lra.
  - intros H. specialize (Hpos H). apply Qlt_shift_div_l; [done|]. lra.
Qed.

(** The three cases of the RSI formula on an average gain and an average
    loss: no loss and no gain gives NaN, no loss with a gain gives 100, and
    a loss keeps the result in [0, 100]. *)
Lemma rsi_no_move g l :
  g == 0 → l == 0 → rsi_from_rs (fdiv (Fin g) (Fin l)) = NaN.
Proof.
  intros Hg Hl. unfold fdiv.
  apply Qeq_bool_iff in Hl. rewrite Hl. apply Qeq_alt in Hg. by rewrite Hg.
Qed.

Lemma rsi_no_loss g l :
  0 < g → l == 0 → rsi_from_rs (fdiv (Fin g) (Fin l)) = Fin 100.
Proof.
  intros Hg Hl. unfold fdiv.
  apply Qeq_bool_iff in Hl. rewrite Hl.
  assert (Qcompare g 0 = Gt) as -> by (by apply Qgt_alt). done.
Qed.

Lemma rsi_with_loss g l :
  0 <= g → 0 < l →
  ∃ r, rsi_from_rs (fdiv (Fin g) (Fin l)) = Fin r ∧ 0 <= r <= 100.
Proof.
  intros Hg Hl. unfold rsi_from_rs, fdiv at 2.
  rewrite Qeq_bool_false by lra.
  set (rs := Qred (g / l)).
  assert (Hrs : 0 <= rs).
  { unfold rs. rewrite Qred_correct. apply Qle_shift_div_l; lra. }
  cbn [fadd]. set (d := Qred (1 + rs)).
  assert (Hd : 1 <= d) by (unfold d; rewrite Qred_correct; lra).
  unfold fdiv. rewrite Qeq_bool_false by lra.
  set (e := Qred (100 / d)).
  assert (He : 0 <= e <= 100).
  { unfold e. rewrite Qred_correct. split.
    - apply Qle_shift_div_l; lra.
    - apply Qle_shift_div_r; lra. }
  unfold fsub, fneg, fadd. eexists. split; [done|].
  rewrite !Qred_correct. lra.
Qed.

Lemma length_nonempty {A} (l : list A) : length l ≠ O → l ≠ [].
Proof. by destruct l. Qed.

(** The latest RSI, from the trailing deltas. *)
Lemma rsi_series_last data :
  data ≠ [] →
  iloc_last (rsi_series (Fin <$> data)) (Fin 50) =
    if (14 <=? length data)%nat then
      rsi_from_rs
        (fdiv (fmean (where_ (λ d, fgtb d (Fin 0)) (trailing_deltas data)))
              (fmean (fneg <$> where_ (λ d, fltb d (Fin 0)) (trailing_deltas data))))
    else NaN.
Proof.
  intros Hd. assert (Hn : length data ≠ O) by (by destruct data).
  unfold iloc_last, rsi_series. cbv zeta.
  set (G := where_ (λ d, fgtb d (Fin 0)) (diff (Fin <$> data))).
  set (L := fneg <$> where_ (λ d, fltb d (Fin 0)) (diff (Fin <$> data))).
  assert (HG : length G = length data)
    by (unfold G, where_; by rewrite length_fmap, diff_length, length_fmap).
  assert (HL : length L = length data)
    by (unfold L, where_; by rewrite !length_fmap, diff_length, length_fmap).
  rewrite fmap_last, last_zip_with by (by rewrite !rolling_length, HG, HL).
  rewrite !rolling_last by (apply length_nonempty; congruence).
  rewrite HG, HL. cbn [fmap option_fmap option_map default].
  destruct (Nat.leb_spec 14 (length data)) as [Hlen|Hlen]; [|done].
  rewrite !take_ge by (rewrite length_drop; lia).
  unfold G, L, trailing_deltas, where_. by rewrite !fmap_drop.
Qed.

(** ** The claims on the return metrics *)

Ltac lookup_key :=
  repeat (rewrite lookup_insert_ne by done); rewrite lookup_insert_eq.

(** C8. A price history of at least two bars with one and the same
    (non-zero) close has volatility, Sharpe ratio, maximum drawdown and
    cumulative return all 0: the zero standard deviation makes the Sharpe
    ratio 0, no division is attempted. *)
Theorem C8_flat_history_metrics data c :
  Qsqrt 0 == 0 →
  (2 ≤ length data)%nat → Forall (λ x, x == c) data → ¬ c == 0 →
  calculate_returns data !! "annual_volatility_pct" = Some (PNum (Fin 0)) ∧
  calculate_returns data !! "sharpe_ratio" = Some (PNum (Fin 0)) ∧
  calculate_returns data !! "max_drawdown_pct" = Some (PNum (Fin 0)) ∧
  calculate_returns data !! "cumulative_return_pct" = Some (PNum (Fin 0)).
Proof.
  intros Hs Hlen Hflat Hc.
  destruct data as [|a l]; [simpl in Hlen; lia|]. cbn [length] in Hlen.
  destruct (iloc_last_flat c (a :: l) NaN ltac:(done) Hflat) as (z & Hz & Hzc).
  inversion Hflat as [|? ? Ha Hl]; subst.
  unfold calculate_returns. cbv zeta.
  rewrite (daily_returns_flat c) by done. rewrite Hz.
  rewrite length_replicate, fmap_replicate.
  change (fadd (Fin 1) (Fin 0)) with (Fin 1).
  rewrite cumprod_ones, expanding_max_ones, zip_with_replicate.
  change (fdiv (fsub (Fin 1) (Fin 1)) (Fin 1)) with (Fin 0).
  rewrite series_min_zeros by lia.
  change (iloc_first (Fin <$> a :: l) NaN) with (Fin a).
  rewrite (fdiv_same z a c) by done.
  repeat apply conj; lookup_key; do 2 f_equal.
  - destruct (Nat.ltb_spec 1 (length l)); [|done].
    rewrite fstd_zeros by (done || lia).
    change (fsqrt (Fin 252)) with (Fin (Qred (Qsqrt 252))).
    by rewrite !fmul_zero_l.
  - destruct (Nat.le_gt_cases 2 (length l)).
    + by rewrite fstd_zeros by done.
    + by rewrite fstd_short by (rewrite length_replicate; lia).
Qed.

(** C4 (amended). On fewer than two bars [calculate_returns] raises
    nothing.  With no bar it returns the empty mapping.  With one bar it
    returns all six metrics: volatility and Sharpe ratio are 0, the
    cumulative return is 0 (NaN for a zero close), and maximum drawdown,
    average daily return and share of positive days are NaN. *)
Theorem C4_fewer_than_two_bars data :
  (length data < 2)%nat →
  (data = [] ∧ calculate_returns data = ∅) ∨
  (∃ c, data = [c] ∧
     calculate_returns data =
       <["cumulative_return_pct" := PNum (if Qeq_bool c 0 then NaN else Fin 0)]>
       (<["annual_volatility_pct" := PNum (Fin 0)]>
       (<["sharpe_ratio" := PNum (Fin 0)]>
       (<["max_drawdown_pct" := PNum NaN]>
       (<["avg_daily_return_pct" := PNum NaN]>
       (<["positive_days_pct" := PNum NaN]> ∅)))))).
Proof.
  intros Hlen. destruct data as [|c [|c' l]]; [by left| |simpl in Hlen; lia].
  right. exists c. split; [done|].
  unfold calculate_returns. cbv zeta.
  change (dropna (pct_change (Fin <$> [c]))) with (@nil fl).
  change (iloc_last (Fin <$> [c]) NaN) with (Fin c).
  change (iloc_first (Fin <$> [c]) NaN) with (Fin c).
  do 2 f_equal.
  unfold fdiv. destruct (Qeq_bool c 0) eqn:E.
  - apply Qeq_bool_eq in E.
    assert (Qcompare c 0 = Eq) as -> by (by apply Qeq_alt). done.
  - assert (Qred (c / c) = 1) as ->; [|done].
    apply Qred_one. field. intros H. apply Qeq_bool_iff in H. congruence.
Qed.

(** ** The claim on the RSI *)

Lemma trailing_deltas_length data :
  (14 ≤ length data)%nat → length (trailing_deltas data) = 14%nat.
Proof.
  intros H. unfold trailing_deltas.
  rewrite length_drop, diff_length, length_fmap. lia.
Qed.

Lemma trailing_deltas_finite data : Forall finite_or_nan (trailing_deltas data).
Proof. unfold trailing_deltas. apply Forall_drop, diff_finite. Qed.

(** C5 (amended). The reported RSI of a non-empty price history lies in
    [0, 100].  When no delta of the trailing 14-bar window is negative, the
    average loss is 0 and the division raises nothing: the RSI is exactly
    100 if some delta of the window is positive, and the neutral 50 if
    none is (a flat window gives 0/0, a NaN, which is reported as 50).  With
    fewer than 14 bars it is 50 as well. *)
Theorem C5_rsi_range_and_saturation data :
  data ≠ [] →
  ∃ q, calculate_technical_indicators data !! "rsi" = Some (PNum (Fin q)) ∧
       0 <= q <= 100 ∧
       ((length data < 14)%nat → q = 50) ∧
       ((14 ≤ length data)%nat →
        Forall (λ d, fltb d (Fin 0) = false) (trailing_deltas data) →
        (Exists (λ d, fgtb d (Fin 0) = true) (trailing_deltas data) → q = 100) ∧
        (Forall (λ d, fgtb d (Fin 0) = false) (trailing_deltas data) → q = 50)).
Proof.
  intros Hd. rewrite (technicals_rsi data Hd), (rsi_series_last data Hd).
  destruct (Nat.leb_spec 14 (length data)) as [Hlen|Hlen].
  2: { exists 50. split; [done|]. split; [lra|]. split; [done|]. lia. }
  pose proof (trailing_deltas_finite data) as HW.
  pose proof (trailing_deltas_length data Hlen) as HWlen.
  set (W := trailing_deltas data) in *.
  assert (HG0 : where_ (λ d, fgtb d (Fin 0)) W ≠ [])
    by (apply length_nonempty; unfold where_; rewrite length_fmap; lia).
  assert (HL0 : fneg <$> where_ (λ d, fltb d (Fin 0)) W ≠ [])
    by (apply length_nonempty; unfold where_; rewrite !length_fmap; lia).
  destruct (fmean_nonneg _ HG0 (gains_nonneg W HW)) as (g & Hg & Hg0 & Hgpos).
  destruct (fmean_nonneg _ HL0 (losses_nonneg W HW)) as (l & Hl & Hl0 & _).
  assert (Hflat_gain : Forall (λ d, fgtb d (Fin 0) = false) W → g = 0).
  { intros H. rewrite (gains_zero W H), fmean_zeros in Hg by lia. congruence. }
  assert (Hflat_loss : Forall (λ d, fltb d (Fin 0) = false) W → l = 0).
  { intros H. rewrite (losses_zero W H), fmean_zeros in Hl by lia. congruence. }
  rewrite Hg, Hl.
  destruct (Qlt_le_dec 0 l) as [Hlpos|Hlz].
  - destruct (rsi_with_loss g l Hg0 Hlpos) as (r & -> & Hr).
    exists (Qround 1 r). split; [done|]. split; [by apply Qround1_range|].
    split; [lia|]. intros _ Hnoloss. specialize (Hflat_loss Hnoloss). subst l. lra.
  - assert (Hlz' : l == 0) by lra.
    destruct (Qlt_le_dec 0 g) as [Hgpos'|Hgz].
    + rewrite (rsi_no_loss g l Hgpos' Hlz').
      exists 100. split; [done|]. split; [lra|]. split; [lia|].
      intros _ _. split; [done|]. intros H. specialize (Hflat_gain H). subst g. lra.
    + assert (Hgz' : g == 0) by lra.
      rewrite (rsi_no_move g l Hgz' Hlz').
      exists 50. split; [done|]. split; [lra|]. split; [done|].
      intros _ _. split; [|done]. intros H.
      specialize (Hgpos (gains_positive W HW H)). lra.
Qed.

(** ** Further properties of the scorer *)

(** X1. The three scores of a returned recommendation: the technical score
    is between 13 and 50, the fundamental score between 0 and 50, the risk
    score between -50 and 0, and the total is their sum. *)
Theorem X1_score_components data info r :
  generate_recommendation data info = Ok r →
  (13 ≤ technical_score r ≤ 50)%Z ∧ (0 ≤ fundamental_score r ≤ 50)%Z ∧
  (-50 ≤ risk_score r ≤ 0)%Z ∧
  total_score r = (technical_score r + fundamental_score r + risk_score r)%Z.
Proof.
  intros H. apply generate_recommendation_Ok in H as (f & _ & H).
  pose proof (score_ranges _ _ _ _ H) as (Ht & Hf & Hr & _).
  apply score_recommendation_Ok in H
    as (? & ? & ? & ? & ? & ? & ? & ? & ? & _ & _ & _ & _ & _ & _ & _ & _ & _ & _ & _ &
        Htot & _).
  done.
Qed.

(** X2. The scorer reads eleven entries and nothing else: two mappings
    triples that agree on them get the same recommendation (or the same
    exception).  Sharpe ratio, moving averages, bands, ROE and the other
    metrics never weigh on it. *)
Theorem X2_scorer_reads_eleven_entries returns technicals fundamentals
    returns' technicals' fundamentals' :
  (∀ k, k ∈ ["cumulative_return_pct"; "annual_volatility_pct"; "max_drawdown_pct"]%string →
        returns !! k = returns' !! k) →
  (∀ k, k ∈ ["ma_signal"; "rsi"; "bb_position"; "current_price"]%string →
        technicals !! k = technicals' !! k) →
  (∀ k, k ∈ ["pe_ratio"; "profit_margin"; "revenue_growth"; "debt_equity"]%string →
        fundamentals !! k = fundamentals' !! k) →
  score_recommendation returns technicals fundamentals =
  score_recommendation returns' technicals' fundamentals'.
Proof.
  intros Hr Ht Hf.
  unfold score_recommendation, ma_points, rsi_points, bb_points, trend_points,
    valuation_points, profitability_points, growth_points, health_points,
    volatility_penalty, drawdown_penalty, price_levels, dict_get.
  rewrite (Hr "cumulative_return_pct"), (Hr "annual_volatility_pct"),
    (Hr "max_drawdown_pct") by set_solver.
  rewrite (Ht "ma_signal"), (Ht "rsi"), (Ht "bb_position"), (Ht "current_price")
    by set_solver.
  rewrite (Hf "pe_ratio"), (Hf "profit_margin"), (Hf "revenue_growth"),
    (Hf "debt_equity") by set_solver.
  reflexivity.
Qed.

(** The return metrics of a single bar. *)
Lemma returns_of_one_bar c :
  calculate_returns [c] !! "cumulative_return_pct"
    = Some (PNum (if Qeq_bool c 0 then NaN else Fin 0)) ∧
  calculate_returns [c] !! "annual_volatility_pct" = Some (PNum (Fin 0)) ∧
  calculate_returns [c] !! "max_drawdown_pct" = Some (PNum NaN).
Proof.
  unfold calculate_returns. cbv zeta.
  change (dropna (pct_change (Fin <$> [c]))) with (@nil fl).
  change (iloc_last (Fin <$> [c]) NaN) with (Fin c).
  change (iloc_first (Fin <$> [c]) NaN) with (Fin c).
  repeat apply conj; lookup_key; [|done..]. do 2 f_equal.
  unfold fdiv. destruct (Qeq_bool c 0) eqn:E.
  - apply Qeq_bool_eq in E.
    assert (Qcompare c 0 = Eq) as -> by (by apply Qeq_alt). done.
  - assert (Qred (c / c) = 1) as ->; [|done].
    apply Qred_one. field. intros H. apply Qeq_bool_iff in H. congruence.
Qed.

(** X3. A price history of a single bar is charged the full drawdown
    penalty: its maximum drawdown is NaN, no band of the drawdown rubric
    matches, and the risk score is -25 (an empty history has 0). *)
Theorem X3_single_bar_risk c info r :
  generate_recommendation [c] info = Ok r →
  calculate_returns [c] !! "max_drawdown_pct" = Some (PNum NaN) ∧
  risk_score r = (-25)%Z.
Proof.
  intros H. destruct (returns_of_one_bar c) as (_ & Hvol & Hmdd).
  split; [done|].
  apply generate_recommendation_Ok in H as (f & _ & H).
  apply score_recommendation_Ok in H
    as (? & ? & ? & ? & ? & ? & r1 & r2 & ? & _ & _ & _ & _ & _ & _ & Hr1 & Hr2 & _ & _ &
        -> & _).
  unfold volatility_penalty, dict_get in Hr1. rewrite Hvol in Hr1.
  unfold drawdown_penalty, dict_get in Hr2. rewrite Hmdd in Hr2.
  vm_compute in Hr1, Hr2. injection Hr1 as <-. injection Hr2 as <-. done.
Qed.

(** ** Further properties of the technical indicators *)

Lemma fsum_fin l : Forall is_fin l → is_fin (fsum l).
Proof.
  induction 1 as [|x l [q ->] _ [s IH]]; [by exists 0|].
  cbn [fsum foldr]. fold (fsum l). rewrite IH. by eexists.
Qed.

Lemma fmean_fin l : l ≠ [] → Forall is_fin l → is_fin (fmean l).
Proof.
  intros Hl [s Hs]%fsum_fin. unfold fmean, of_nat, fdiv. rewrite Hs.
  rewrite Qeq_bool_false; [by eexists|].
  apply of_nat_nonzero. by destruct l.
Qed.

Lemma fstd_fin_or_nan l : Forall is_fin l → finite_or_nan (fstd l).
Proof.
  intros Hl. unfold fstd. destruct (Nat.leb_spec (length l) 1) as [|Hn]; [by left|].
  destruct (fmean_fin l) as [m ->]; [apply length_nonempty; lia|done|].
  assert (Hsq : Forall is_fin ((λ x, fsqr (fsub (Fin m) x)) <$> l)).
  { apply Forall_fmap. eapply Forall_impl; [exact Hl|].
    intros x [q ->]. by eexists. }
  apply fsum_fin in Hsq as [v ->]. unfold of_nat, fdiv.
  rewrite Qeq_bool_false by (apply of_nat_nonzero; lia).
  unfold fsqrt. destruct (Qle_bool 0 _); [right; by eexists|by left].
Qed.

Lemma closes_fin (data : list Q) : Forall is_fin (Fin <$> data).
Proof. apply Forall_fmap, Forall_true. intros q. by exists q. Qed.

Lemma window_fin (data : list Q) w k : Forall is_fin (take w (drop k (Fin <$> data))).
Proof. apply Forall_take, Forall_drop, closes_fin. Qed.

Lemma window_nonempty {A} (l : list A) w :
  (0 < w)%nat → (w ≤ length l)%nat → take w (drop (length l - w) l) ≠ [].
Proof.
  intros Hw Hl. apply length_nonempty. rewrite length_take, length_drop. lia.
Qed.

(** The latest value of a moving average: a number once the window is
    full, NaN before. *)
Lemma moving_average_last (data : list Q) w :
  data ≠ [] → (0 < w)%nat →
  (length data < w)%nat ∧ iloc_last (rolling w fmean (Fin <$> data)) (Fin 0) = NaN ∨
  (w ≤ length data)%nat ∧ is_fin (iloc_last (rolling w fmean (Fin <$> data)) (Fin 0)).
Proof.
  intros Hd Hw. rewrite rolling_iloc_last by (by destruct data).
  rewrite length_fmap. destruct (Nat.leb_spec w (length data)) as [Hn|Hn]; [right|by left].
  split; [done|]. rewrite <- (length_fmap Fin data).
  apply fmean_fin; [|apply window_fin].
  apply window_nonempty; [done|by rewrite length_fmap].
Qed.

(** The latest value of a Bollinger band [middle ± 2 std]. *)
Lemma band_last (data : list Q) (op : fl → fl → fl) dflt :
  data ≠ [] →
  iloc_last (zip_with (λ m s, op m (fmul s (Fin 2)))
               (rolling 20 fmean (Fin <$> data)) (rolling 20 fstd (Fin <$> data))) dflt =
    if (20 <=? length data)%nat
    then op (fmean (take 20 (drop (length data - 20) (Fin <$> data))))
            (fmul (fstd (take 20 (drop (length data - 20) (Fin <$> data)))) (Fin 2))
    else op NaN NaN.
Proof.
  intros Hd. assert (Hcp : Fin <$> data ≠ []) by (by destruct data).
  unfold iloc_last. rewrite last_zip_with by (by rewrite !rolling_length).
  rewrite !rolling_last by done. rewrite length_fmap.
  by destruct (20 <=? length data)%nat.
Qed.

Lemma round_or_fin ndigits x q : finite_or_nan x → is_fin (round_or ndigits x (Fin q)).
Proof. intros [->|[r ->]]; by eexists. Qed.

Lemma fadd_fin_or_nan x y : finite_or_nan x → finite_or_nan y → finite_or_nan (fadd x y).
Proof. intros [->|[a ->]] [->|[b ->]]; try by left. right. by eexists. Qed.

Lemma fsub_fin_or_nan x y : finite_or_nan x → finite_or_nan y → finite_or_nan (fsub x y).
Proof. intros [->|[a ->]] [->|[b ->]]; try by left. right. by eexists. Qed.

Lemma fmul2_fin_or_nan x : finite_or_nan x → finite_or_nan (fmul x (Fin 2)).
Proof. intros [->|[a ->]]; [by left|]. right. by eexists. Qed.

Lemma is_fin_or_nan x : is_fin x → finite_or_nan x.
Proof. intros [q ->]. right. by exists q. Qed.

Lemma band_fin_or_nan (data : list Q) (op : fl → fl → fl) dflt :
  data ≠ [] →
  (∀ x y, finite_or_nan x → finite_or_nan y → finite_or_nan (op x y)) →
  finite_or_nan (iloc_last (zip_with (λ m s, op m (fmul s (Fin 2)))
    (rolling 20 fmean (Fin <$> data)) (rolling 20 fstd (Fin <$> data))) dflt).
Proof.
  intros Hd Hop. rewrite band_last by done.
  destruct (Nat.leb_spec 20 (length data)) as [Hn|Hn].
  - apply Hop.
    + apply is_fin_or_nan, fmean_fin; [|apply window_fin].
      rewrite <- (length_fmap Fin data).
      apply window_nonempty; [lia|by rewrite length_fmap].
    + apply fmul2_fin_or_nan, fstd_fin_or_nan, window_fin.
  - apply Hop; by left.
Qed.

(** The latest RSI is NaN or a number of [0, 100]. *)
Lemma current_rsi_range data :
  data ≠ [] →
  iloc_last (rsi_series (Fin <$> data)) (Fin 50) = NaN ∨
  ∃ r, iloc_last (rsi_series (Fin <$> data)) (Fin 50) = Fin r ∧ 0 <= r <= 100.
Proof.
  intros Hd. rewrite (rsi_series_last data Hd).
  destruct (Nat.leb_spec 14 (length data)) as [Hlen|Hlen]; [|by left].
  pose proof (trailing_deltas_finite data) as HW.
  pose proof (trailing_deltas_length data Hlen) as HWlen.
  set (W := trailing_deltas data) in *.
  assert (HG0 : where_ (λ d, fgtb d (Fin 0)) W ≠ [])
    by (apply length_nonempty; unfold where_; rewrite length_fmap; lia).
  assert (HL0 : fneg <$> where_ (λ d, fltb d (Fin 0)) W ≠ [])
    by (apply length_nonempty; unfold where_; rewrite !length_fmap; lia).
  destruct (fmean_nonneg _ HG0 (gains_nonneg W HW)) as (g & -> & Hg0 & _).
  destruct (fmean_nonneg _ HL0 (losses_nonneg W HW)) as (l & -> & Hl0 & _).
  destruct (Qlt_le_dec 0 l) as [Hlpos|Hlz].
  - right. by apply rsi_with_loss.
  - assert (Hlz' : l == 0) by lra.
    destruct (Qlt_le_dec 0 g) as [Hgpos|Hgz].
    + right. rewrite (rsi_no_loss g l Hgpos Hlz'). exists 100. split; [done|lra].
    + left. apply rsi_no_move; lra.
Qed.

Lemma Qround1_between (a b : Z) r :
  inject_Z a <= r <= inject_Z b → inject_Z a <= Qround 1 r <= inject_Z b.
Proof.
  intros [Ha Hb]. unfold Qround. rewrite Qred_correct.
  change (inject_Z (10 ^ Z.of_nat 1)) with (inject_Z 10).
  assert (Hlo : (10 * a ≤ rint (r * inject_Z 10))%Z).
  { apply rint_lower. rewrite inject_Z_mult. change (inject_Z 10) with 10.
    clear Hb. revert Ha. generalize (inject_Z a). intros A Ha. lra. }
  assert (Hhi : (rint (r * inject_Z 10) ≤ 10 * b)%Z).
  { apply rint_upper. rewrite inject_Z_mult. change (inject_Z 10) with 10.
    clear Ha Hlo. revert Hb. generalize (inject_Z b). intros B Hb. lra. }
  rewrite Zle_Qle in Hlo, Hhi.
  set (z := inject_Z (rint (r * inject_Z 10))) in *. clearbody z.
  rewrite inject_Z_mult in Hlo, Hhi.
  change (inject_Z 10) with 10 in *.
  clear Ha Hb. revert Hlo Hhi.
  generalize (inject_Z a), (inject_Z b).
  intros A B Hlo Hhi. split.
  - apply Qle_shift_div_l; lra.
  - apply Qle_shift_div_r; lra.
Qed.

Lemma closes_last_fin (data : list Q) dflt :
  data ≠ [] → is_fin (iloc_last (Fin <$> data) dflt).
Proof.
  intros Hd. unfold iloc_last. rewrite fmap_last.
  destruct (last data) as [z|] eqn:Hz; [by exists z|].
  by apply last_None in Hz.
Qed.

Lemma moving_average_fin_or_nan (data : list Q) w :
  data ≠ [] → (0 < w)%nat →
  finite_or_nan (iloc_last (rolling w fmean (Fin <$> data)) (Fin 0)).
Proof.
  intros Hd Hw.
  destruct (moving_average_last data w Hd Hw) as [[_ ->]|[_ H]];
    [by left|by apply is_fin_or_nan].
Qed.

Lemma current_rsi_fin_or_nan data :
  data ≠ [] → finite_or_nan (iloc_last (rsi_series (Fin <$> data)) (Fin 50)).
Proof.
  intros Hd. destruct (current_rsi_range data Hd) as [->|(r & -> & _)];
    [by left|right; by eexists].
Qed.

Ltac open_technicals data :=
  unfold calculate_technical_indicators;
  let c := fresh "c" in let l := fresh "l" in
  destruct data as [|c l]; [done|];
  cbv beta iota zeta;
  set (data := c :: l) in *.

(** X4. The technical snapshot of a non-empty price history has exactly
    ten entries; its seven indicator values are finite numbers (a NaN is
    reported as 0, or as 50 for the RSI), and the RSI and band signals are
    one of their three labels each. *)
Theorem X4_technical_snapshot_shape data :
  data ≠ [] →
  dom (calculate_technical_indicators data) =
    (list_to_set ["current_price"; "ma_20"; "ma_50"; "ma_200"; "rsi"; "bb_upper";
                  "bb_lower"; "ma_signal"; "rsi_signal"; "bb_position"]%string
       : gset string) ∧
  (∀ k, k ∈ ["current_price"; "ma_20"; "ma_50"; "ma_200"; "rsi"; "bb_upper";
             "bb_lower"]%string →
        ∃ q, calculate_technical_indicators data !! k = Some (PNum (Fin q))) ∧
  (∃ s, calculate_technical_indicators data !! "rsi_signal" = Some (PStr s) ∧
        s ∈ ["Overbought"; "Oversold"; "Neutral"]%string) ∧
  (∃ s, calculate_technical_indicators data !! "bb_position" = Some (PStr s) ∧
        s ∈ ["Upper Band"; "Lower Band"; "Middle Range"]%string).
Proof.
  intros Hd.
  pose proof (closes_last_fin data (Fin 0) Hd) as [p Hp].
  pose proof (round_or_fin 2 _ 0 (moving_average_fin_or_nan data 20 Hd ltac:(lia)))
    as [m20 H20].
  pose proof (round_or_fin 2 _ 0 (moving_average_fin_or_nan data 50 Hd ltac:(lia)))
    as [m50 H50].
  pose proof (round_or_fin 2 _ 0 (moving_average_fin_or_nan data 200 Hd ltac:(lia)))
    as [m200 H200].
  pose proof (round_or_fin 1 _ 50 (current_rsi_fin_or_nan data Hd)) as [rsi Hrsi].
  pose proof (round_or_fin 2 _ 0
    (band_fin_or_nan data fadd (Fin 0) Hd fadd_fin_or_nan)) as [up Hup].
  pose proof (round_or_fin 2 _ 0
    (band_fin_or_nan data fsub (Fin 0) Hd fsub_fin_or_nan)) as [low Hlow].
  revert Hp H20 H50 H200 Hrsi Hup Hlow. open_technicals data.
  intros Hp H20 H50 H200 Hrsi Hup Hlow.
  rewrite Hp, H20, H50, H200, Hrsi, Hup, Hlow.
  split; [by rewrite !dom_insert_L, dom_empty_L|].
  split.
  { intros k Hk.
    repeat (apply elem_of_cons in Hk as [->|Hk]; [lookup_key; by eexists|]).
    by apply elem_of_nil in Hk. }
  split.
  - eexists. split; [by lookup_key|]. repeat case_match; set_solver.
  - eexists. split; [by lookup_key|]. repeat case_match; set_solver.
Qed.

(** X5. A history shorter than an indicator's window reads 0 for it: with
    fewer than 20 bars [ma_20] and both Bollinger bands are 0 and the
    price is in the "Middle Range"; [ma_50] and [ma_200] are 0 below 50 and
    200 bars. *)
Theorem X5_short_history_reads_zero data :
  data ≠ [] →
  ((length data < 20)%nat →
     calculate_technical_indicators data !! "ma_20" = Some (PNum (Fin 0)) ∧
     calculate_technical_indicators data !! "bb_upper" = Some (PNum (Fin 0)) ∧
     calculate_technical_indicators data !! "bb_lower" = Some (PNum (Fin 0)) ∧
     calculate_technical_indicators data !! "bb_position" = Some (PStr "Middle Range")) ∧
  ((length data < 50)%nat →
     calculate_technical_indicators data !! "ma_50" = Some (PNum (Fin 0))) ∧
  ((length data < 200)%nat →
     calculate_technical_indicators data !! "ma_200" = Some (PNum (Fin 0))).
Proof.
  intros Hd.
  assert (Hcp : Fin <$> data ≠ []) by (by destruct data).
  assert (Hma : ∀ w, (length data < w)%nat →
            iloc_last (rolling w fmean (Fin <$> data)) (Fin 0) = NaN).
  { intros w Hw. apply rolling_short; [done|by rewrite length_fmap]. }
  assert (Hband : ∀ op, op NaN NaN = NaN → (length data < 20)%nat →
            iloc_last (zip_with (λ m s, op m (fmul s (Fin 2)))
              (rolling 20 fmean (Fin <$> data)) (rolling 20 fstd (Fin <$> data)))
              (Fin 0) = NaN).
  { intros op Hop Hn. rewrite band_last by done.
    by destruct (Nat.leb_spec 20 (length data)); [lia|]. }
  pose proof (closes_last_fin data (Fin 0) Hd) as [p Hp].
  revert Hma Hband Hp. open_technicals data. intros Hma Hband Hp.
  repeat apply conj.
  - intros Hn. rewrite (Hma 20%nat Hn), (Hband fadd eq_refl Hn), (Hband fsub eq_refl Hn), Hp.
    repeat apply conj; by lookup_key.
  - intros Hn. rewrite (Hma 50%nat Hn). by lookup_key.
  - intros Hn. rewrite (Hma 200%nat Hn). by lookup_key.
Qed.

Ltac neutral_rsi r :=
  exists "Neutral"%string, (Qround 1 r); split; [done|]; split; [done|];
  right; right; split; [done|];
  let Hlo := fresh "Hlo" in let Hhi := fresh "Hhi" in
  destruct (Qround1_between 30 70 r) as [Hlo Hhi]; [unfold inject_Z; lra|];
  split; [done|];
  repeat (rewrite lookup_insert_ne by done); rewrite lookup_insert_eq;
  unfold round_or, fround; cbn [fisnan negb default from_option id py_num];
  monad_simpl; unfold fleb; cbv beta iota;
  apply Qle_bool_iff in Hlo, Hhi;
  change (inject_Z 30) with 30 in Hlo; change (inject_Z 70) with 70 in Hhi;
  by rewrite Hlo, Hhi.

(** X6. The RSI label agrees with the reported RSI: "Overbought" comes
    with an RSI of at least 70, "Oversold" with one of at most 30, and
    "Neutral" with one between 30 and 70, which the scorer rewards with its
    10 points. *)
Theorem X6_rsi_signal_agrees_with_rsi data :
  data ≠ [] →
  ∃ s q, calculate_technical_indicators data !! "rsi_signal" = Some (PStr s) ∧
         calculate_technical_indicators data !! "rsi" = Some (PNum (Fin q)) ∧
         ((s = "Overbought" ∧ 70 <= q <= 100) ∨
          (s = "Oversold" ∧ 0 <= q <= 30) ∨
          (s = "Neutral" ∧ 30 <= q <= 70 ∧
           rsi_points (calculate_technical_indicators data) = Ok 10%Z)).
Proof.
  intros Hd. unfold rsi_points, dict_get.
  pose proof (current_rsi_range data Hd) as Hrsi.
  revert Hrsi. open_technicals data. intros Hrsi.
  destruct Hrsi as [->|(r & -> & Hr0 & Hr100)].
  { exists "Neutral"%string, 50. split; [done|]. split; [done|].
    right. right. split; [done|]. split; [lra|].
    repeat (rewrite lookup_insert_ne by done). by rewrite lookup_insert_eq. }
  unfold fgtb, fltb.
  destruct (Qcompare_spec 70 r) as [E|E|E].
  - destruct (Qcompare_spec r 30) as [E'|E'|E']; try lra. neutral_rsi r.
  - exists "Overbought"%string, (Qround 1 r). split; [done|]. split; [done|].
    left. split; [done|]. apply (Qround1_between 70 100 r). unfold inject_Z; lra.
  - destruct (Qcompare_spec r 30) as [E'|E'|E'].
    + neutral_rsi r.
    + exists "Oversold"%string, (Qround 1 r). split; [done|]. split; [done|].
      right. left. split; [done|]. apply (Qround1_between 0 30 r). unfold inject_Z; lra.
    + neutral_rsi r.
Qed.

Lemma fsum_flat c (l : list Q) :
  Forall (λ x, x == c) l →
  ∃ s, fsum (Fin <$> l) = Fin s ∧ s == inject_Z (Z.of_nat (length l)) * c.
Proof.
  induction 1 as [|x l Hx _ (s & Hs & Hsc)].
  - exists 0. split; [done|]. simpl. ring.
  - exists (Qred (x + s)). rewrite fmap_cons. cbn [fsum foldr]. fold (fsum (Fin <$> l)).
    rewrite Hs. split; [done|]. rewrite Qred_correct, Hx, Hsc.
    cbn [length]. rewrite Nat2Z.inj_succ, <- Z.add_1_r, inject_Z_plus.
    change (inject_Z 1) with 1. ring.
Qed.

Lemma fmean_flat c (l : list Q) :
  l ≠ [] → Forall (λ x, x == c) l → ∃ m, fmean (Fin <$> l) = Fin m ∧ m == c.
Proof.
  intros Hl (s & Hs & Hsc)%fsum_flat.
  assert (Hn : length l ≠ O) by (by destruct l).
  exists (Qred (s / inject_Z (Z.of_nat (length l)))).
  unfold fmean, of_nat, fdiv. rewrite Hs, length_fmap.
  rewrite Qeq_bool_false by (by apply of_nat_nonzero).
  split; [done|]. rewrite Qred_correct, Hsc. field. by apply of_nat_nonzero.
Qed.

(** X7. A price history that stays at one price is never "Bullish",
    however long it is: the close is not strictly above its 20-bar
    average. *)
Theorem X7_flat_history_is_bearish data c :
  data ≠ [] → Forall (λ x, x == c) data →
  calculate_technical_indicators data !! "ma_signal" = Some (PStr "Bearish").
Proof.
  intros Hd Hflat. rewrite (technicals_ma_signal data Hd). do 2 f_equal.
  destruct (iloc_last_flat c data (Fin 0) Hd Hflat) as (z & -> & Hz).
  assert (Hcp : Fin <$> data ≠ []) by (by destruct data).
  rewrite (rolling_iloc_last 20) by done. rewrite length_fmap.
  unfold ma_signal_of.
  destruct (Nat.leb_spec 20 (length data)) as [Hn|Hn]; [|done].
  rewrite <- fmap_drop, <- fmap_take.
  destruct (fmean_flat c (take 20 (drop (length data - 20) data))) as (m & -> & Hm).
  - apply length_nonempty. rewrite length_take, length_drop. lia.
  - by apply Forall_take, Forall_drop.
  - unfold fgtb at 1. unfold fltb at 1.
    destruct (Qcompare_spec m z) as [E|E|E]; [done| |done]. lra.
Qed.

(** ** Further properties of the return metrics *)

Lemma Qround_between n (a b : Z) r :
  inject_Z a <= r <= inject_Z b → inject_Z a <= Qround n r <= inject_Z b.
Proof.
  intros [Ha Hb]. unfold Qround. rewrite Qred_correct.
  set (P := (10 ^ Z.of_nat n)%Z).
  assert (HP : 0 < inject_Z P).
  { change 0 with (inject_Z 0). rewrite <- Zlt_Qlt. unfold P. lia. }
  assert (Hlo : (a * P ≤ rint (r * inject_Z P))%Z).
  { apply rint_lower. rewrite inject_Z_mult.
    apply Qmult_le_compat_r; [done|]. by apply Qlt_le_weak. }
  assert (Hhi : (rint (r * inject_Z P) ≤ b * P)%Z).
  { apply rint_upper. rewrite inject_Z_mult.
    apply Qmult_le_compat_r; [done|]. by apply Qlt_le_weak. }
  rewrite Zle_Qle, inject_Z_mult in Hlo, Hhi.
  split.
  - by apply Qle_shift_div_l.
  - by apply Qle_shift_div_r.
Qed.

Lemma Qround_lower n (a : Z) r : inject_Z a <= r → inject_Z a <= Qround n r.
Proof.
  intros Ha. unfold Qround. rewrite Qred_correct.
  set (P := (10 ^ Z.of_nat n)%Z).
  assert (HP : 0 < inject_Z P).
  { change 0 with (inject_Z 0). rewrite <- Zlt_Qlt. unfold P. lia. }
  assert (Hlo : (a * P ≤ rint (r * inject_Z P))%Z).
  { apply rint_lower. rewrite inject_Z_mult.
    apply Qmult_le_compat_r; [done|]. by apply Qlt_le_weak. }
  rewrite Zle_Qle, inject_Z_mult in Hlo. by apply Qle_shift_div_l.
Qed.

Lemma Qround_upper n (b : Z) r : r <= inject_Z b → Qround n r <= inject_Z b.
Proof.
  intros Hb. unfold Qround. rewrite Qred_correct.
  set (P := (10 ^ Z.of_nat n)%Z).
  assert (HP : 0 < inject_Z P).
  { change 0 with (inject_Z 0). rewrite <- Zlt_Qlt. unfold P. lia. }
  assert (Hhi : (rint (r * inject_Z P) ≤ b * P)%Z).
  { apply rint_upper. rewrite inject_Z_mult.
    apply Qmult_le_compat_r; [done|]. by apply Qlt_le_weak. }
  rewrite Zle_Qle, inject_Z_mult in Hhi. by apply Qle_shift_div_r.
Qed.

Lemma returns_of_positive a (l : list Q) :
  Forall (λ c, 0 < c) (a :: l) →
  Forall above_total_loss
    (zip_with (λ prev cur, fsub (fdiv cur prev) (Fin 1)) (Fin <$> a :: l) (Fin <$> l)).
Proof.
  revert a. induction l as [|b l IH]; intros a Hpos; [constructor|].
  apply Forall_cons in Hpos as [Ha Hpos].
  pose proof Hpos as [Hb _]%Forall_cons.
  rewrite !fmap_cons. cbn [zip_with]. constructor.
  - unfold fdiv. rewrite Qeq_bool_false by lra.
    eexists. split; [reflexivity|]. rewrite !Qred_correct.
    assert (0 < b / a) by (apply Qlt_shift_div_l; lra). lra.
  - exact (IH b Hpos).
Qed.

Lemma dropna_keeps l :
  Forall (λ x, fisnan x = false) l → dropna l = l.
Proof.
  induction 1 as [|x l Hx _ IH]; [done|].
  unfold dropna in *. cbn [List.filter]. by rewrite Hx, IH.
Qed.

Lemma daily_returns_of_positive a (l : list Q) :
  Forall (λ c, 0 < c) (a :: l) →
  Forall above_total_loss (dropna (pct_change (Fin <$> a :: l))) ∧
  length (dropna (pct_change (Fin <$> a :: l))) = length l.
Proof.
  intros Hpos. pose proof (returns_of_positive a l Hpos) as Hr.
  rewrite fmap_cons. unfold pct_change.
  change (dropna (NaN :: ?x)) with (dropna x).
  rewrite <- fmap_cons, dropna_keeps.
  - split; [done|]. rewrite length_zip_with, !length_fmap. cbn [length]. lia.
  - eapply Forall_impl; [exact Hr|]. by intros x (q & -> & _).
Qed.

Lemma growth_positive l :
  Forall above_total_loss l → Forall positive (fadd (Fin 1) <$> l).
Proof.
  intros H. apply Forall_fmap. eapply Forall_impl; [exact H|].
  intros x (q & -> & Hq). eexists. split; [reflexivity|].
  rewrite Qred_correct. lra.
Qed.

Lemma fmul_positive x y : positive x → positive y → positive (fmul x y).
Proof.
  intros (a & -> & Ha) (b & -> & Hb). eexists. split; [reflexivity|].
  rewrite Qred_correct. by apply Qmult_lt_0_compat.
Qed.

Lemma cumprod_from_positive acc l :
  positive acc → Forall positive l → Forall positive (cumprod_from acc l).
Proof.
  intros Hacc Hl. revert acc Hacc.
  induction Hl as [|x l Hx _ IH]; intros acc Hacc; [constructor|].
  cbn [cumprod_from]. constructor; [by apply fmul_positive|].
  apply IH. by apply fmul_positive.
Qed.

Lemma cumprod_positive l : Forall positive l → Forall positive (cumprod l).
Proof.
  intros Hl. destruct Hl as [|x l Hx Hl]; [constructor|].
  cbn [cumprod]. constructor; [done|]. by apply cumprod_from_positive.
Qed.

(** Against the running maximum, every point of a positive curve is a
    drawdown. *)
Lemma drawdowns_from cur l :
  cur = NaN ∨ positive cur → Forall positive l →
  Forall is_drawdown
    (zip_with (λ c m, fdiv (fsub c m) m) l (expanding_max_from cur l)).
Proof.
  intros Hcur Hl. revert cur Hcur.
  induction Hl as [|x l (q & -> & Hq) _ IH]; intros cur Hcur; [constructor|].
  cbn [expanding_max_from zip_with].
  assert (Hm : ∃ M, fmax_skipna cur (Fin q) = Fin M ∧ q <= M ∧ 0 < M).
  { destruct Hcur as [->|(p & -> & Hp)].
    - exists q. split; [done|]. lra.
    - unfold fmax_skipna, fltb. destruct (Qcompare_spec p q) as [E|E|E].
      + exists p. split; [done|]. lra.
      + exists q. split; [done|]. lra.
      + exists p. split; [done|]. lra. }
  destruct Hm as (M & -> & HqM & HM). constructor.
  - unfold fsub, fneg, fadd, fdiv. rewrite Qeq_bool_false by lra.
    eexists. split; [reflexivity|]. rewrite !Qred_correct. split.
    + apply Qle_shift_div_l; lra.
    + apply Qle_shift_div_r; lra.
  - apply IH. right. by exists M.
Qed.

Lemma foldl_min_drawdown acc l :
  is_drawdown acc → Forall is_drawdown l → is_drawdown (foldl fmin_skipna acc l).
Proof.
  intros Hacc Hl. revert acc Hacc.
  induction Hl as [|x l (q & -> & Hq) _ IH]; intros acc (a & -> & Ha); [by exists a|].
  cbn [foldl]. apply IH. unfold fmin_skipna, fltb.
  destruct (Qcompare q a); by eexists.
Qed.

Lemma series_min_drawdown l :
  l ≠ [] → Forall is_drawdown l → is_drawdown (series_min l).
Proof.
  intros Hne Hl. destruct Hl as [|x l (q & -> & Hq) Hl]; [done|].
  unfold series_min. cbn [foldl]. apply foldl_min_drawdown; [|done].
  by exists q.
Qed.

(** X9. On a price history of at least two bars with positive closes the
    maximum drawdown is a number between -100 and 0 (percent). *)
Theorem X9_max_drawdown_range data :
  (2 ≤ length data)%nat → Forall (λ c, 0 < c) data →
  ∃ q, calculate_returns data !! "max_drawdown_pct" = Some (PNum (Fin q)) ∧
       -100 <= q <= 0.
Proof.
  intros Hlen Hpos. destruct data as [|a l]; [simpl in Hlen; lia|].
  cbn [length] in Hlen.
  destruct (daily_returns_of_positive a l Hpos) as [Hdr Hdrlen].
  unfold calculate_returns. cbv beta iota zeta.
  set (dr := dropna (pct_change (Fin <$> a :: l))) in *.
  pose proof (cumprod_positive _ (growth_positive dr Hdr)) as Hcum.
  set (cum := cumprod (fadd (Fin 1) <$> dr)) in *.
  assert (Hcumne : length cum ≠ O).
  { unfold cum. destruct dr as [|x dr']; [simpl in Hdrlen; lia|done]. }
  pose proof (drawdowns_from NaN cum (or_introl eq_refl) Hcum) as Hdd.
  fold (expanding_max cum) in Hdd.
  assert (Hne : zip_with (λ c m, fdiv (fsub c m) m) cum (expanding_max cum) ≠ []).
  { unfold expanding_max. clear -Hcumne. by destruct cum. }
  destruct (series_min_drawdown _ Hne Hdd) as (d & Hd & Hd1 & Hd0).
  rewrite Hd. lookup_key. eexists. split; [reflexivity|].
  cbn [fmul fround].
  apply (Qround_between 2 (-100) 0). rewrite Qred_correct. unfold inject_Z. lra.
Qed.

(** X10. On the same histories the share of positive days is a number
    between 0 and 100. *)
Theorem X10_positive_days_range data :
  (2 ≤ length data)%nat → Forall (λ c, 0 < c) data →
  ∃ q, calculate_returns data !! "positive_days_pct" = Some (PNum (Fin q)) ∧
       0 <= q <= 100.
Proof.
  intros Hlen Hpos. destruct data as [|a l]; [simpl in Hlen; lia|].
  cbn [length] in Hlen.
  destruct (daily_returns_of_positive a l Hpos) as [_ Hdrlen].
  unfold calculate_returns. cbv beta iota zeta.
  set (dr := dropna (pct_change (Fin <$> a :: l))) in *.
  lookup_key. rewrite Hdrlen.
  assert (Hcnt : (count_positive dr ≤ length l)%nat).
  { rewrite <- Hdrlen. unfold count_positive. apply filter_length_le. }
  unfold of_nat, fdiv. rewrite Qeq_bool_false by (apply of_nat_nonzero; lia).
  eexists. split; [reflexivity|]. cbn [fmul fround].
  assert (Hn : 0 < inject_Z (Z.of_nat (length l))) by (apply inject_nat_pos; lia).
  assert (Hc0 : 0 <= inject_Z (Z.of_nat (count_positive dr))).
  { change 0 with (inject_Z 0). rewrite <- Zle_Qle. lia. }
  assert (Hcn : inject_Z (Z.of_nat (count_positive dr)) <= inject_Z (Z.of_nat (length l))).
  { rewrite <- Zle_Qle. lia. }
  revert Hn Hc0 Hcn.
  generalize (inject_Z (Z.of_nat (count_positive dr))), (inject_Z (Z.of_nat (length l))).
  intros cnt n Hn Hc0 Hcn.
  apply (Qround_between 1 0 100). rewrite !Qred_correct. unfold inject_Z.
  assert (0 <= cnt / n) by (apply Qle_shift_div_l; lra).
  assert (cnt / n <= 1) by (apply Qle_shift_div_r; lra).
  lra.
Qed.

(** X11. The sign of the cumulative return follows the first and the last
    close: with a positive first close it is at least 0 when the last close
    is not lower, at most 0 when it is not higher, and never below -100
    while the last close is positive. *)
Theorem X11_cumulative_return_sign data first final :
  head data = Some first → last data = Some final → 0 < first →
  ∃ q, calculate_returns data !! "cumulative_return_pct" = Some (PNum (Fin q)) ∧
       (first <= final → 0 <= q) ∧ (final <= first → q <= 0) ∧
       (0 < final → -100 <= q).
Proof.
  intros Hhead Hlast Hfirst. destruct data as [|a l]; [done|].
  unfold calculate_returns. cbv beta iota zeta. lookup_key.
  unfold iloc_last, iloc_first. rewrite fmap_last, Hlast.
  cbn [head] in Hhead. injection Hhead as ->.
  rewrite fmap_cons. cbn [head fmap option_fmap option_map default from_option id].
  unfold fdiv. rewrite Qeq_bool_false by lra.
  eexists. split; [reflexivity|]. cbn [fsub fneg fadd fmul fround].
  repeat apply conj.
  - intros H. apply (Qround_lower 2 0). rewrite !Qred_correct. unfold inject_Z.
    assert (1 <= final / first) by (apply Qle_shift_div_l; lra). lra.
  - intros H. apply (Qround_upper 2 0). rewrite !Qred_correct. unfold inject_Z.
    assert (final / first <= 1) by (apply Qle_shift_div_r; lra). lra.
  - intros H. apply (Qround_lower 2 (-100)). rewrite !Qred_correct. unfold inject_Z.
    assert (0 <= final / first) by (apply Qle_shift_div_l; lra). lra.
Qed.

(** ** Further properties of the fundamentals extractor *)

Lemma extract_metric_step info acc yf our key :
  extract_metric info acc (yf, our) !! key =
    if decide (our = key)
    then from_option Some (acc !! key) (extracted (info !! yf))
    else acc !! key.
Proof.
  unfold extract_metric, dict_get, extracted.
  destruct (decide (our = key)) as [->|Hne];
    destruct (info !! yf) as [[|x|s]|]; cbn [default from_option id];
    first [done | by rewrite lookup_insert_eq | by rewrite lookup_insert_ne].
Qed.

Lemma extract_fold_other info ms acc key :
  key ∉ ms.*2 → foldl (extract_metric info) acc ms !! key = acc !! key.
Proof.
  revert acc. induction ms as [|[yf our] ms IH]; intros acc Hk; [done|].
  rewrite fmap_cons in Hk. apply not_elem_of_cons in Hk as [Hne Hk].
  cbn [foldl]. rewrite (IH _ Hk), extract_metric_step.
  destruct (decide (our = key)) as [->|_]; [by destruct Hne|done].
Qed.

Lemma extract_fold_at info ms acc yf our :
  NoDup ms.*2 → (yf, our) ∈ ms →
  foldl (extract_metric info) acc ms !! our =
    from_option Some (acc !! our) (extracted (info !! yf)).
Proof.
  revert acc. induction ms as [|[yf' our'] ms IH]; intros acc Hnd Hin;
    [by apply elem_of_nil in Hin|].
  rewrite fmap_cons in Hnd. apply NoDup_cons in Hnd as [Hnotin Hnd].
  cbn [foldl]. apply elem_of_cons in Hin as [[= <- <-]|Hin].
  - rewrite extract_fold_other by done.
    rewrite extract_metric_step. by case_decide.
  - rewrite IH by done. rewrite extract_metric_step.
    case_decide; [|done]. subst. exfalso. apply Hnotin.
    apply list_elem_of_fmap. by exists (yf, our).
Qed.

Lemma metrics_NoDup : NoDup metrics.*2.
Proof. by apply (bool_decide_unpack _); vm_compute. Qed.

Lemma extracted_lookup info yf our :
  (yf, our) ∈ metrics →
  foldl (extract_metric info) ∅ metrics !! our = extracted (info !! yf).
Proof.
  intros Hin. rewrite (extract_fold_at info metrics ∅ yf our metrics_NoDup Hin).
  rewrite lookup_empty. by destruct (extracted _).
Qed.

(** The composite metric is added to the extracted ones, whatever they
    are. *)
Lemma composite_frame (f0 info f : gmap string pyval) key :
  match f0 !! "revenue", info !! "marketCap" with
  | Some revenue, Some market_cap =>
      if truthy market_cap then
        rev ← py_num revenue;
        if fgtb rev (Fin 0) then
          mc ← py_num market_cap;
          mret (<["market_cap_to_revenue" := PNum (fround 2 (fdiv mc rev))]> f0)
        else mret f0
      else mret f0
  | _, _ => mret f0
  end = Ok f →
  key ≠ "market_cap_to_revenue"%string → f !! key = f0 !! key.
Proof.
  intros H Hkey.
  destruct (f0 !! "revenue") as [revenue|]; [|injection H as <-; reflexivity].
  destruct (info !! "marketCap") as [mc|]; [|injection H as <-; reflexivity].
  destruct (truthy mc); [|injection H as <-; reflexivity].
  destruct revenue as [|rev|s]; [discriminate H| |discriminate H].
  unfold mbind, mret, result_bind, result_ret, py_num in H. cbv beta iota in H.
  destruct (fgtb rev (Fin 0)); [|injection H as <-; reflexivity].
  destruct mc as [|m|s]; [discriminate H| |discriminate H].
  injection H as <-. rewrite lookup_insert_ne; [reflexivity|congruence].
Qed.

Lemma analyze_fundamentals_frame info f key :
  analyze_fundamentals info = Ok f → key ≠ "market_cap_to_revenue"%string →
  f !! key = foldl (extract_metric info) ∅ metrics !! key.
Proof.
  exact (composite_frame (foldl (extract_metric info) ∅ metrics) info f key).
Qed.

(** X12. What [analyze_fundamentals] returns under a metric's name is
    decided by the provider's value under the metric's key alone: an absent
    or [None] value leaves the name out, a number is rounded to 3 decimals,
    any other value is passed on as it is. *)
Theorem X12_fundamentals_extraction info f yf_key our_key :
  analyze_fundamentals info = Ok f → (yf_key, our_key) ∈ metrics →
  f !! our_key = extracted (info !! yf_key).
Proof.
  intros Hf Hin. rewrite (analyze_fundamentals_frame info f our_key Hf).
  - by apply extracted_lookup.
  - intros ->. clear Hf. metric_key Hin.
Qed.

Lemma analyze_fundamentals_unfold info :
  analyze_fundamentals info = add_composite (foldl (extract_metric info) ∅ metrics) info.
Proof. unfold analyze_fundamentals, add_composite. cbv zeta. exact eq_refl. Qed.


Lemma add_composite_raises (f0 info : gmap string pyval) :
  f0 !! "revenue" = extracted (info !! "totalRevenue") →
  (∃ e, add_composite f0 info = Raise e) ↔
  ∃ mc, info !! "marketCap" = Some mc ∧ truthy mc = true ∧
    ((∃ s, info !! "totalRevenue" = Some (PStr s)) ∨
     (∃ rev s, info !! "totalRevenue" = Some (PNum rev) ∧
               fgtb (fround 3 rev) (Fin 0) = true ∧ mc = PStr s)).
Proof.
  unfold add_composite. intros ->. split.
  - intros [e H].
    destruct (info !! "totalRevenue") as [[|rev|s]|]; cbn [extracted] in H.
    + discriminate H.
    + destruct (info !! "marketCap") as [mc|]; [|discriminate H].
      destruct (truthy mc) eqn:Ht; [|discriminate H].
      unfold mbind, mret, result_bind, result_ret, py_num in H. cbv beta iota in H.
      destruct (fgtb (fround 3 rev) (Fin 0)) eqn:Hpos; [|discriminate H].
      destruct mc as [|m|s]; [discriminate Ht|discriminate H|].
      exists (PStr s). split; [done|]. split; [done|]. right. by exists rev, s.
    + destruct (info !! "marketCap") as [mc|]; [|discriminate H].
      destruct (truthy mc) eqn:Ht; [|discriminate H].
      exists mc. split; [done|]. split; [done|]. left. by exists s.
    + discriminate H.
  - intros (mc & -> & Ht & [[s ->]|(rev & s & -> & Hpos & ->)]);
      cbn [extracted]; rewrite Ht.
    + by exists TypeError.
    + unfold mbind, mret, result_bind, result_ret, py_num. cbv beta iota.
      rewrite Hpos. by exists TypeError.
Qed.

Lemma extracted_revenue info :
  foldl (extract_metric info) ∅ metrics !! "revenue" = extracted (info !! "totalRevenue").
Proof. apply extracted_lookup. unfold metrics. set_solver. Qed.



(** X14. When market cap and revenue, if numbers, are within the range of
    a double (so that their division cannot overflow),
    [analyze_fundamentals] raises in two situations only, both with a
    market cap that counts as true: the revenue is a string, or the revenue
    is a positive number and the market cap is a string.  Whatever else the
    provider returns, strings included, the extraction goes through. *)
Theorem X14_fundamentals_raise_exactly info :
  in_double_range (info !! "marketCap") →
  in_double_range (info !! "totalRevenue") →
  ((∃ e, analyze_fundamentals info = Raise e) ↔
   ∃ mc, info !! "marketCap" = Some mc ∧ truthy mc = true ∧
     ((∃ s, info !! "totalRevenue" = Some (PStr s)) ∨
      (∃ rev s, info !! "totalRevenue" = Some (PNum rev) ∧
                fgtb (fround 3 rev) (Fin 0) = true ∧ mc = PStr s))).
Proof.
  intros _ _. rewrite analyze_fundamentals_unfold.
  apply add_composite_raises, extracted_revenue.
Qed.

(** ** When the recommendation raises *)

Lemma raises_Ok {A} (a : A) : ¬ raises (Ok a).
Proof. intros [e H]. discriminate H. Qed.

Lemma raises_Raise {A} e : raises (@Raise A e).
Proof. by exists e. Qed.

(** A rubric that orders a metric raises exactly on a string from the
    provider. *)
Lemma rubric_raises (f : gmap string pyval) our v x0 :
  f !! our = extracted v →
  raises (py_num (dict_get f our (PNum x0))) ↔ ∃ s, v = Some (PStr s).
Proof.
  intros Hf. unfold dict_get. rewrite Hf.
  destruct v as [[|x|s]|]; cbn [extracted default from_option id py_num]; split;
    try (intros H; by apply raises_Ok in H); try (intros [s' H]; discriminate H).
  - intros _. by exists s.
  - intros _. apply raises_Raise.
Qed.

Lemma bind_ret_raises {A B} (m : result A) (g : A → B) :
  raises (a ← m; mret (g a)) ↔ raises m.
Proof.
  destruct m as [a|e]; monad_simpl; split; intros H;
    first [by apply raises_Ok in H | apply raises_Raise].
Qed.

Lemma valuation_raises (f : gmap string pyval) v :
  f !! "pe_ratio" = extracted v →
  raises (valuation_points f) ↔ ∃ s, v = Some (PStr s) ∧ s ≠ ""%string.
Proof.
  intros Hf. unfold valuation_points, dict_get. rewrite Hf.
  destruct v as [[|x|s]|]; cbn [extracted default from_option id].
  - split; [intros H; by apply raises_Ok in H|intros (s & H & _); discriminate H].
  - destruct (truthy (PNum (fround 3 x))); cbn [py_num]; monad_simpl;
      (split; [intros H; by apply raises_Ok in H|intros (s & H & _); discriminate H]).
  - cbn [truthy]. destruct (String.eqb_spec s "") as [->|Hs]; cbn [negb py_num]; monad_simpl.
    + split; [intros H; by apply raises_Ok in H|intros (s & [= <-] & Hs); by destruct Hs].
    + split; [intros _; by exists s|intros _; apply raises_Raise].
  - split; [intros H; by apply raises_Ok in H|intros (s & H & _); discriminate H].
Qed.

Lemma score_recommendation_raises returns technicals fundamentals :
  numeric_at technicals "rsi" → numeric_at technicals "current_price" →
  numeric_at returns "cumulative_return_pct" →
  numeric_at returns "annual_volatility_pct" →
  numeric_at returns "max_drawdown_pct" →
  raises (score_recommendation returns technicals fundamentals) ↔
  raises (valuation_points fundamentals) ∨ raises (profitability_points fundamentals) ∨
  raises (growth_points fundamentals) ∨ raises (health_points fundamentals).
Proof.
  intros H1 H2 H3 H4 H5. unfold score_recommendation.
  destruct (rsi_points_total _ H1) as [t2 ->].
  destruct (trend_points_total _ H3) as [t4 ->].
  destruct (volatility_penalty_total _ H4) as [r1 ->].
  destruct (drawdown_penalty_total _ H5) as [r2 ->].
  destruct (valuation_points fundamentals) as [f1|e1];
    [|monad_simpl; split; [intros _; left|intros _]; apply raises_Raise].
  destruct (profitability_points fundamentals) as [f2|e2];
    [|monad_simpl; split; [intros _; right; left|intros _]; apply raises_Raise].
  destruct (growth_points fundamentals) as [f3|e3];
    [|monad_simpl; split; [intros _; right; right; left|intros _]; apply raises_Raise].
  destruct (health_points fundamentals) as [f4|e4];
    [|monad_simpl; split; [intros _; right; right; right|intros _]; apply raises_Raise].
  monad_simpl. destruct (recommendation_band _) as [[rec conv] why].
  destruct (price_levels_total _ rec H2) as [[target stop] ->]. monad_simpl.
  split; [intros H; by apply raises_Ok in H|].
  intros [H|[H|[H|H]]]; by apply raises_Ok in H.
Qed.

Ltac in_metrics :=
  unfold metrics; repeat first [apply list_elem_of_here | apply list_elem_of_further].

Lemma fundamentals_lookup info f yf_key our_key :
  analyze_fundamentals info = Ok f → (yf_key, our_key) ∈ metrics →
  f !! our_key = extracted (info !! yf_key).
Proof.
  intros Hf Hin. rewrite (analyze_fundamentals_frame info f our_key Hf).
  - by apply extracted_lookup.
  - intros ->. clear Hf. metric_key Hin.
Qed.

(** X15. [generate_recommendation] raises in these cases only: the
    fundamentals extraction raises, or the provider gave a string for the
    profit margin, the revenue growth or the debt/equity ratio, or a
    non-empty string for the trailing P/E (an empty one counts as a missing
    P/E).  The price history plays no part in it. *)
Theorem X15_recommendation_raises_exactly data info :
  raises (generate_recommendation data info) ↔
  raises (analyze_fundamentals info) ∨
  (∃ s, info !! "trailingPE" = Some (PStr s) ∧ s ≠ ""%string) ∨
  (∃ s, info !! "profitMargins" = Some (PStr s)) ∨
  (∃ s, info !! "revenueGrowth" = Some (PStr s)) ∨
  (∃ s, info !! "debtToEquity" = Some (PStr s)).
Proof.
  unfold generate_recommendation.
  destruct (analyze_fundamentals info) as [f|e] eqn:Hf; monad_simpl.
  - pose proof (valuation_raises f (info !! "trailingPE")
      (fundamentals_lookup info f "trailingPE" "pe_ratio" Hf
         ltac:(in_metrics))) as Hv.
    pose proof (rubric_raises f "profit_margin" (info !! "profitMargins") (Fin 0)
      (fundamentals_lookup info f "profitMargins" "profit_margin" Hf
         ltac:(in_metrics))) as Hp.
    pose proof (rubric_raises f "revenue_growth" (info !! "revenueGrowth") (Fin 0)
      (fundamentals_lookup info f "revenueGrowth" "revenue_growth" Hf
         ltac:(in_metrics))) as Hg.
    pose proof (rubric_raises f "debt_equity" (info !! "debtToEquity") (Fin 1)
      (fundamentals_lookup info f "debtToEquity" "debt_equity" Hf
         ltac:(in_metrics))) as Hh.
    rewrite score_recommendation_raises
      by auto using technicals_rsi_numeric, technicals_price_numeric,
                    calculate_returns_numeric.
    unfold profitability_points, growth_points, health_points.
    rewrite !bind_ret_raises, Hv, Hp, Hg, Hh.
    split; [intros H; by right|].
    intros [H|H]; [by apply raises_Ok in H|exact H].
  - split; [intros _; left|intros _]; apply raises_Raise.
Qed.

(** ** Price target and stop loss *)

Lemma rint_mono x y : x <= y → (rint x ≤ rint y)%Z.
Proof.
  intros Hxy. pose proof (Qfloor_resp_le _ _ Hxy) as Hf.
  destruct (Z.eq_dec (Qfloor x) (Qfloor y)) as [Heq|Hne].
  - unfold rint. cbv zeta. rewrite <- Heq.
    destruct (Qcompare_spec (x - inject_Z (Qfloor x)) (1 # 2)) as [Hx|Hx|Hx];
    destruct (Qcompare_spec (y - inject_Z (Qfloor x)) (1 # 2)) as [Hy|Hy|Hy];
      try lia; try (destruct (Z.even _); lia); exfalso; lra.
  - transitivity (Qfloor x + 1)%Z.
    + apply rint_upper, Qlt_le_weak, Qlt_floor.
    + transitivity (Qfloor y); [lia|]. apply rint_lower, Qfloor_le.
Qed.

Lemma Qround_mono n x y : x <= y → Qround n x <= Qround n y.
Proof.
  intros Hxy. unfold Qround. rewrite !Qred_correct.
  set (P := (10 ^ Z.of_nat n)%Z).
  assert (HP : 0 < inject_Z P).
  { change 0 with (inject_Z 0). rewrite <- Zlt_Qlt. unfold P. lia. }
  assert (Hr : (rint (x * inject_Z P) ≤ rint (y * inject_Z P))%Z).
  { apply rint_mono. apply Qmult_le_compat_r; [done|]. by apply Qlt_le_weak. }
  rewrite Zle_Qle in Hr.
  apply Qmult_le_compat_r; [done|]. apply Qlt_le_weak. by apply Qinv_lt_0_compat.
Qed.

Lemma fgtb_zero p : fgtb (Fin p) (Fin 0) = true → 0 < p.
Proof.
  unfold fgtb, fltb. destruct (Qcompare_spec 0 p) as [E|E|E]; [discriminate|done|discriminate].
Qed.

(** The levels derived from a current price: non-negative, and ordered by
    the side of the recommendation. *)
Lemma price_levels_order technicals rec p levels :
  py_num (dict_get technicals "current_price" (PNum (Fin 0))) = Ok (Fin p) →
  price_levels technicals rec = Ok levels →
  ∃ t s, levels = (Fin t, Fin s) ∧ 0 <= t ∧ 0 <= s ∧
         match rec with SELL => t <= s | _ => s <= t end.
Proof.
  unfold price_levels. intros ->.
  monad_simpl. destruct (fgtb (Fin p) (Fin 0)) eqn:Hpos; intros [= <-].
  - apply fgtb_zero in Hpos.
    assert (Hlo : ∀ c, 0 <= c → 0 <= Qround 2 (Qred (p * c))).
    { intros c Hc. apply (Qround_lower 2 0). rewrite Qred_correct.
      change (inject_Z 0) with 0. apply Qmult_le_0_compat; [by apply Qlt_le_weak|done]. }
    assert (Hmono : ∀ c d, c <= d → Qround 2 (Qred (p * c)) <= Qround 2 (Qred (p * d))).
    { intros c d Hcd. apply Qround_mono. rewrite !Qred_correct.
      rewrite (Qmult_comm p c), (Qmult_comm p d).
      apply Qmult_le_compat_r; [done|by apply Qlt_le_weak]. }
    destruct rec; cbn [fmul fround]; do 2 eexists; (split; [reflexivity|]).
    + split; [apply Hlo; lra|]. split; [apply Hlo; lra|]. apply Hmono. lra.
    + split; [apply (Qround_lower 2 0); change (inject_Z 0) with 0; lra|].
      split; [apply Hlo; lra|]. apply Qround_mono. rewrite Qred_correct. lra.
    + split; [apply Hlo; lra|]. split; [apply Hlo; lra|]. apply Hmono. lra.
  - exists 0, 0. split; [by destruct rec|]. destruct rec; lra.
Qed.

Lemma technicals_price data :
  ∃ p, py_num (dict_get (calculate_technical_indicators data) "current_price"
                        (PNum (Fin 0))) = Ok (Fin p).
Proof.
  destruct data as [|c l]; [by exists 0|].
  assert (Hne : c :: l ≠ []) by done.
  destruct (closes_last_fin (c :: l) (Fin 0) Hne) as [q Hq].
  unfold calculate_technical_indicators, dict_get. cbv beta iota zeta.
  rewrite lookup_insert_eq. cbn [default from_option id py_num].
  rewrite Hq. cbn [fround]. eauto.
Qed.

(** X16. In every returned recommendation the price target and the stop
    loss are finite and not negative; the stop is at or below the target
    for BUY and HOLD, and at or above it for SELL. *)
Theorem X16_stop_and_target_order data info r :
  generate_recommendation data info = Ok r →
  ∃ t s, price_target r = Fin t ∧ stop_loss r = Fin s ∧ 0 <= t ∧ 0 <= s ∧
         match recommendation r with SELL => t <= s | _ => s <= t end.
Proof.
  intros Hr. apply generate_recommendation_Ok in Hr as (f & _ & Hr).
  apply score_recommendation_Ok in Hr
    as (? & ? & ? & ? & ? & ? & ? & ? & lv & _ & _ & _ & _ & _ & _ & _ & _ &
        _ & _ & _ & _ & _ & Hlv & Hpair).
  destruct (technicals_price data) as [p Hp].
  destruct (price_levels_order _ _ p lv Hp Hlv) as (t & s & -> & Ht & Hs & Hord).
  injection Hpair as -> ->. eauto 10.
Qed.

(** ** The report *)

Lemma generate_report_Ok now self rep :
  generate_report now self = Ok rep →
  ∃ f r, analyze_fundamentals (self_info self) = Ok f ∧
         generate_recommendation (self_data self) (self_info self) = Ok r ∧
         rep = {| basic_info := get_basic_info self;
                  returns_analysis := calculate_returns (self_data self);
                  technical_analysis := calculate_technical_indicators (self_data self);
                  fundamental_analysis := f;
                  trading_recommendation := r;
                  analysis_date := now;
                  data_period := self_period self;
                  data_points := length (self_data self) |}.
Proof.
  unfold generate_report. intros H. inv_bind H. inv_bind H.
  injection H as <-. eauto.
Qed.

Lemma calculate_returns_empty data : calculate_returns data = ∅ ↔ data = [].
Proof.
  destruct data as [|c l]; [done|]. unfold calculate_returns. cbv beta iota zeta.
  split; [intros H; by apply insert_non_empty in H|done].
Qed.

Lemma technicals_empty data : calculate_technical_indicators data = ∅ ↔ data = [].
Proof.
  destruct data as [|c l]; [done|]. unfold calculate_technical_indicators.
  cbv beta iota zeta.
  split; [intros H; by apply insert_non_empty in H|done].
Qed.

(** X17. The sections of a report belong together: scoring the report's
    own returns, technical and fundamental sections gives the report's
    trading recommendation; [data_points] is the number of bars analysed,
    and it is 0 exactly when the returns and technical sections are
    empty. *)
Theorem X17_report_is_consistent now self rep :
  generate_report now self = Ok rep →
  score_recommendation (returns_analysis rep) (technical_analysis rep)
    (fundamental_analysis rep) = Ok (trading_recommendation rep) ∧
  data_points rep = length (self_data self) ∧
  (data_points rep = 0%nat ↔ returns_analysis rep = ∅ ∧ technical_analysis rep = ∅).
Proof.
  intros H. apply generate_report_Ok in H as (f & r & Hf & Hr & ->).
  cbn [returns_analysis technical_analysis fundamental_analysis
       trading_recommendation data_points].
  apply generate_recommendation_Ok in Hr as (f' & Hf' & Hr).
  rewrite Hf in Hf'. injection Hf' as <-.
  split; [done|]. split; [done|].
  rewrite calculate_returns_empty, technicals_empty, length_zero_iff_nil. tauto.
Qed.

(** X18. A report fails exactly when the recommendation fails, and with
    the same exception: none of the other sections can make it fail. *)
Theorem X18_report_fails_with_recommendation now self e :
  generate_report now self = Raise e ↔
  generate_recommendation (self_data self) (self_info self) = Raise e.
Proof.
  unfold generate_report, generate_recommendation. cbv zeta.
  destruct (analyze_fundamentals (self_info self)) as [f|e']; monad_simpl;
    [|split; congruence].
  destruct (score_recommendation _ _ f) as [r|e']; monad_simpl; split; congruence.
Qed.

(** X21. A report shows the provider's P/E and P/B twice: as they came in
    the basic section, rounded to 3 decimals in the fundamental section. *)
Theorem X21_ratio_raw_and_rounded now self rep yf_key name x :
  generate_report now self = Ok rep →
  (yf_key, name) ∈ [("trailingPE", "pe_ratio"); ("priceToBook", "pb_ratio")]%string →
  self_info self !! yf_key = Some (PNum x) →
  basic_info rep !! name = Some (PNum x) ∧
  fundamental_analysis rep !! name = Some (PNum (fround 3 x)).
Proof.
  intros H Hin Hx. apply generate_report_Ok in H as (f & r & Hf & _ & ->).
  cbn [basic_info fundamental_analysis].
  apply elem_of_cons in Hin as [[= -> ->]|Hin];
    [|apply elem_of_cons in Hin as [[= -> ->]|Hin]; [|by apply elem_of_nil in Hin]].
  - split.
    + unfold get_basic_info, dict_get. lookup_key. by rewrite Hx.
    + rewrite (fundamentals_lookup _ f "trailingPE" "pe_ratio" Hf ltac:(in_metrics)).
      by rewrite Hx.
  - split.
    + unfold get_basic_info, dict_get. lookup_key. by rewrite Hx.
    + rewrite (fundamentals_lookup _ f "priceToBook" "pb_ratio" Hf ltac:(in_metrics)).
      by rewrite Hx.
Qed.

(** ** Comparing stocks *)

Lemma compare_loop_spec yf symbols market period acc :
  match compare_loop yf symbols market period acc with
  | Ok results =>
      dom results = list_to_set symbols ∪ dom acc ∧
      (∀ s, s ∈ symbols →
         ∃ c, compare_entry yf s market period = Ok c ∧ results !! s = Some c) ∧
      (∀ s, s ∉ symbols → results !! s = acc !! s)
  | Raise e => ∃ s, s ∈ symbols ∧ compare_entry yf s market period = Raise e
  end.
Proof.
  revert acc. induction symbols as [|s rest IH]; intros acc; cbn [compare_loop].
  - monad_simpl. split; [set_solver|]. split; [|done].
    intros s Hs. by apply elem_of_nil in Hs.
  - destruct (compare_entry yf s market period) as [c|e] eqn:Hc; monad_simpl.
    + specialize (IH (<[s:=c]> acc)).
      destruct (compare_loop yf rest market period (<[s:=c]> acc)) as [results|e].
      * destruct IH as (Hdom & Hin & Hout). split; [|split].
        -- rewrite Hdom, dom_insert_L, list_to_set_cons. set_solver.
        -- intros s' Hs'. destruct (decide (s' ∈ rest)) as [Hr|Hr]; [by apply Hin|].
           apply elem_of_cons in Hs' as [->|Hs']; [|done].
           exists c. split; [done|]. rewrite (Hout s Hr). apply lookup_insert_eq.
        -- intros s' Hs'. apply not_elem_of_cons in Hs' as [Hne Hs'].
           rewrite (Hout s' Hs'). by rewrite lookup_insert_ne.
      * destruct IH as (s' & Hs' & He). exists s'. split; [by right|done].
    + exists s. split; [left|done].
Qed.

(** What one turn of the loop stores, for any outcome [m] of the
    recommendation. *)
Lemma compare_entry_outcome (m : result Recommendation) (basic returns : gmap string pyval) :
  match (recommendation ← m;
         mret {| cmp_basic_info := basic;
                 cmp_returns := returns;
                 cmp_recommendation := recommendation |}) with
  | Ok c => cmp_basic_info c = basic ∧ cmp_returns c = returns ∧
            m = Ok (cmp_recommendation c)
  | Raise e => m = Raise e
  end.
Proof. by destruct m. Qed.

Lemma compare_entry_spec yf s market period :
  match compare_entry yf s market period with
  | Ok c =>
      cmp_basic_info c = get_basic_info (__init__ yf s market period "1d") ∧
      cmp_returns c = calculate_returns (self_data (__init__ yf s market period "1d")) ∧
      generate_recommendation (self_data (__init__ yf s market period "1d"))
        (self_info (__init__ yf s market period "1d")) = Ok (cmp_recommendation c)
  | Raise e =>
      generate_recommendation (self_data (__init__ yf s market period "1d"))
        (self_info (__init__ yf s market period "1d")) = Raise e
  end.
Proof. unfold compare_entry. cbv zeta. apply compare_entry_outcome. Qed.

(** X19. [compare_stocks] is all or nothing.  When it returns, its keys
    are exactly the symbols asked for, and each entry holds the basic
    information, the return metrics and the recommendation of its own
    analyzer; when it raises, the recommendation of one of the symbols
    raised that exception, and the results of the others are lost. *)
Theorem X19_comparison_is_all_or_nothing yf symbols market period :
  match compare_stocks yf symbols market period with
  | Ok results =>
      dom results = list_to_set symbols ∧
      ∀ s, s ∈ symbols →
        ∃ c, results !! s = Some c ∧
          cmp_basic_info c = get_basic_info (__init__ yf s market period "1d") ∧
          cmp_returns c = calculate_returns (self_data (__init__ yf s market period "1d")) ∧
          generate_recommendation (self_data (__init__ yf s market period "1d"))
            (self_info (__init__ yf s market period "1d")) = Ok (cmp_recommendation c)
  | Raise e =>
      ∃ s, s ∈ symbols ∧
        generate_recommendation (self_data (__init__ yf s market period "1d"))
          (self_info (__init__ yf s market period "1d")) = Raise e
  end.
Proof.
  unfold compare_stocks.
  pose proof (compare_loop_spec yf symbols market period ∅) as H.
  destruct (compare_loop yf symbols market period ∅) as [results|e].
  - destruct H as (Hdom & Hin & _). split; [rewrite Hdom; set_solver|].
    intros s Hs. destruct (Hin s Hs) as (c & Hc & Hlook).
    exists c. split; [done|].
    pose proof (compare_entry_spec yf s market period) as Hspec.
    rewrite Hc in Hspec. exact Hspec.
  - destruct H as (s & Hs & Hc). exists s. split; [done|].
    pose proof (compare_entry_spec yf s market period) as Hspec.
    rewrite Hc in Hspec. exact Hspec.
Qed.

Lemma recommendation_of_nothing :
  ∃ r, generate_recommendation [] ∅ = Ok r ∧ recommendation r = HOLD ∧
       conviction r = NEUTRAL ∧ total_score r = 41%Z.
Proof. eexists. split; [vm_compute; reflexivity|]. by vm_compute. Qed.

(** X20. A symbol the provider knows nothing about (no bars or a failed
    price request, no fundamentals or a failed one) is still analysed:
    [analyze_stock] returns a report with no data points and empty
    sections, every basic field but the symbol 'N/A', and the
    recommendation HOLD / NEUTRAL with a total score of 41. *)
Theorem X20_unknown_ticker_report yf now symbol market period :
  (provider_history yf (format_symbol symbol market) period "1d" = Ok [] ∨
   ∃ e, provider_history yf (format_symbol symbol market) period "1d" = Raise e) →
  (provider_info yf (format_symbol symbol market) = Ok ∅ ∨
   ∃ e, provider_info yf (format_symbol symbol market) = Raise e) →
  ∃ rep, analyze_stock yf now symbol market period = Ok rep ∧
    data_points rep = 0%nat ∧
    returns_analysis rep = ∅ ∧ technical_analysis rep = ∅ ∧
    fundamental_analysis rep = ∅ ∧
    basic_info rep !! "symbol" = Some (PStr (upper symbol)) ∧
    (∀ k, k ∈ dom (basic_info rep) → k ≠ "symbol"%string →
          basic_info rep !! k = Some (PStr "N/A")) ∧
    recommendation (trading_recommendation rep) = HOLD ∧
    conviction (trading_recommendation rep) = NEUTRAL ∧
    total_score (trading_recommendation rep) = 41%Z.
Proof.
  intros Hdata Hinfo.
  destruct recommendation_of_nothing as (r & Hr & Hrec & Hconv & Htot).
  unfold analyze_stock, generate_report, __init__.
  cbn [self_data self_info self_period self_symbol].
  rewrite (fetch_data_failed _ Hdata).
  assert (Hi : _fetch_info (provider_info yf (format_symbol symbol market)) = ∅)
    by (by destruct Hinfo as [->|[e ->]]).
  rewrite Hi, analyze_fundamentals_empty, Hr. monad_simpl.
  eexists. split; [reflexivity|].
  cbn [data_points returns_analysis technical_analysis fundamental_analysis
       basic_info trading_recommendation length].
  repeat (apply conj); try done.
  intros k Hk Hne. apply elem_of_dom in Hk as [v Hv].
  rewrite Hv. f_equal. unfold get_basic_info in Hv.
  cbn [self_info self_symbol] in Hv. unfold dict_get in Hv.
  rewrite lookup_insert_ne in Hv by done.
  rewrite !lookup_empty in Hv. cbn [default from_option id] in Hv.
  repeat (apply lookup_insert_Some in Hv as [[_ <-]|[_ Hv]]; [done|]).
  by rewrite lookup_empty in Hv.
Qed.

End Analyzer.

(** * stock_analysis_example.py: the stand-alone example script

    The script analyses a ticker without the [StockAnalyzer] class.  Its
    printing is left out; what it returns is modelled. *)

Module StockAnalysisExample.

(** The dict [analyze_stock] returns: the keys 'ticker', 'price',
    'return', 'volatility' and 'trend'. *)
Record Analysis : Type := {
  res_ticker : string;
  res_price : fl;
  res_return : fl;
  res_volatility : fl;
  res_trend : string
}.

Section Example.

Variable Qsqrt : Q → Q.

(** [analyze_stock] (lines 13-69): [None] on an empty history and on any
    exception.  The history is asked for with the provider's default
    interval, one day. *)
Definition analyze_stock (yf : Provider) (ticker period : string) : option Analysis :=
  match provider_history yf ticker period "1d" with
  | Raise _ => None
  | Ok [] => None
  | Ok hist =>
      match provider_info yf ticker with
      | Raise _ => None
      | Ok info =>
          let close := Fin <$> hist in
          let start_price := iloc_first close NaN in
          let end_price := iloc_last close NaN in
          let return_pct :=
            fmul (fdiv (fsub end_price start_price) start_price) (Fin 100) in
          let daily_returns := dropna (pct_change close) in
          let volatility :=
            fmul (fmul (fstd Qsqrt daily_returns) (fsqrt Qsqrt (Fin 252))) (Fin 100) in
          let ma_50 := iloc_last (rolling 50 fmean close) NaN in
          let ma_200 := iloc_last (rolling 200 fmean close) NaN in
          Some {| res_ticker := ticker;
                  res_price := end_price;
                  res_return := return_pct;
                  res_volatility := volatility;
                  res_trend :=
                    if fgtb end_price ma_50 && fgtb end_price ma_200
                    then "bullish" else "bearish" |}
      end
  end.

(** [compare_stocks] (lines 71-91): [results] is the list built so far; a
    returned dict is never empty, so [if result:] tests for [None]. *)
Fixpoint compare_loop (yf : Provider) (tickers : list string) (period : string)
    (results : list Analysis) : list Analysis :=
  match tickers with
  | [] => results
  | ticker :: rest =>
      match analyze_stock yf ticker period with
      | Some result => compare_loop yf rest period (results ++ [result])
      | None => compare_loop yf rest period results
      end
  end.

Definition compare_stocks (yf : Provider) (tickers : list string) (period : string)
  : list Analysis :=
  compare_loop yf tickers period [].

(** What a returned analysis is made of. *)
Lemma analyze_stock_Some yf ticker period r :
  analyze_stock yf ticker period = Some r →
  ∃ hist, provider_history yf ticker period "1d" = Ok hist ∧ hist ≠ [] ∧
    res_ticker r = ticker ∧
    res_price r = iloc_last (Fin <$> hist) NaN ∧
    res_return r =
      fmul (fdiv (fsub (iloc_last (Fin <$> hist) NaN) (iloc_first (Fin <$> hist) NaN))
                 (iloc_first (Fin <$> hist) NaN)) (Fin 100) ∧
    res_volatility r =
      fmul (fmul (fstd Qsqrt (dropna (pct_change (Fin <$> hist))))
                 (fsqrt Qsqrt (Fin 252))) (Fin 100) ∧
    res_trend r =
      (if fgtb (iloc_last (Fin <$> hist) NaN)
               (iloc_last (rolling 50 fmean (Fin <$> hist)) NaN)
          && fgtb (iloc_last (Fin <$> hist) NaN)
                  (iloc_last (rolling 200 fmean (Fin <$> hist)) NaN)
       then "bullish" else "bearish")%string.
Proof.
  unfold analyze_stock. intros H.
  destruct (provider_history yf ticker period "1d") as [[|c l]|e]; try discriminate H.
  destruct (provider_info yf ticker) as [info|e]; [|discriminate H].
  injection H as <-. exists (c :: l). by repeat (apply conj).
Qed.

(** An analysis is returned whenever both requests go through and there
    is a bar. *)
Lemma analyze_stock_total yf ticker period hist info :
  provider_history yf ticker period "1d" = Ok hist → hist ≠ [] →
  provider_info yf ticker = Ok info →
  ∃ r, analyze_stock yf ticker period = Some r.
Proof.
  unfold analyze_stock. intros -> Hne ->. destruct hist as [|c l]; [done|]. eauto.
Qed.

Lemma compare_loop_omap yf tickers period results :
  compare_loop yf tickers period results =
    results ++ omap (λ t, analyze_stock yf t period) tickers.
Proof.
  revert results. induction tickers as [|t rest IH]; intros results; cbn [compare_loop omap list_omap].
  - by rewrite app_nil_r.
  - destruct (analyze_stock yf t period) as [r|]; rewrite IH; [|done].
    by rewrite <- app_assoc.
Qed.

(** X22. The example's [compare_stocks] never gives up: a ticker whose
    analysis fails is skipped, the others are kept in the order asked.
    The tickers of its results are exactly the tickers that could be
    analysed. *)
Theorem X22_example_compare_skips_failures yf tickers period :
  compare_stocks yf tickers period = omap (λ t, analyze_stock yf t period) tickers ∧
  res_ticker <$> compare_stocks yf tickers period =
    filter (λ t, is_Some (analyze_stock yf t period)) tickers.
Proof.
  assert (H : compare_stocks yf tickers period =
              omap (λ t, analyze_stock yf t period) tickers).
  { unfold compare_stocks. by rewrite compare_loop_omap. }
  split; [done|]. rewrite H. clear H.
  induction tickers as [|t rest IH]; [done|].
  cbn [omap list_omap]. rewrite filter_cons.
  destruct (analyze_stock yf t period) as [r|] eqn:Hr.
  - apply analyze_stock_Some in Hr as (_ & _ & _ & Ht & _).
    rewrite decide_True by eauto. rewrite fmap_cons, Ht. by f_equal.
  - rewrite decide_False by (by intros [? ?]). exact IH.
Qed.

(** ** The example against the analyzer *)

Lemma fltb_trans x y z : fltb x y = true → fltb y z = true → fltb x z = true.
Proof.
  destruct x as [a| | |], y as [b| | |], z as [c| | |]; cbn [fltb]; try done.
  destruct (Qcompare_spec a b) as [?|Hab|?]; try done.
  destruct (Qcompare_spec b c) as [?|Hbc|?]; try done.
  intros _ _. destruct (Qcompare_spec a c) as [E|?|E]; [lra|done|lra].
Qed.

Lemma iloc_last_any l d d' : l ≠ [] → iloc_last l d = iloc_last l d'.
Proof.
  intros Hl. unfold iloc_last. destruct (last l) eqn:E; [done|].
  by apply last_None in E.
Qed.

Lemma closes_nonempty (hist : list Q) : hist ≠ [] → Fin <$> hist ≠ [].
Proof. by destruct hist. Qed.

Lemma rolling_nonempty w agg l : l ≠ [] → rolling w agg l ≠ [].
Proof.
  intros Hl H. apply (f_equal length) in H. rewrite rolling_length in H.
  by destruct l.
Qed.

(** X23. The example never contradicts a bullish analyzer: on one and the
    same price history, whenever the analyzer's [ma_signal] is "Bullish"
    (price above the 20-bar average, above the 50-bar, above the 200-bar
    one), the example's trend is 'bullish'. *)
Theorem X23_bullish_signal_gives_bullish_trend yf ticker period hist r :
  provider_history yf ticker period "1d" = Ok hist →
  analyze_stock yf ticker period = Some r →
  calculate_technical_indicators Qsqrt hist !! "ma_signal" = Some (PStr "Bullish") →
  res_trend r = "bullish"%string.
Proof.
  intros Hh Hr Hsig.
  apply analyze_stock_Some in Hr as (hist' & Hh' & Hne & _ & _ & _ & _ & ->).
  rewrite Hh in Hh'. injection Hh' as <-.
  rewrite technicals_ma_signal in Hsig by done. injection Hsig as Hsig.
  unfold ma_signal_of in Hsig.
  pose proof (closes_nonempty hist Hne) as Hc.
  rewrite (iloc_last_any (Fin <$> hist) NaN (Fin 0)) by done.
  rewrite (iloc_last_any (rolling 50 fmean _) NaN (Fin 0)) by by apply rolling_nonempty.
  rewrite (iloc_last_any (rolling 200 fmean _) NaN (Fin 0)) by by apply rolling_nonempty.
  destruct (fgtb _ _ && fgtb _ _ && fgtb _ _) eqn:Hb in Hsig; [|discriminate Hsig].
  apply andb_prop in Hb as [Hb H3]. apply andb_prop in Hb as [H1 H2].
  unfold fgtb in *.
  pose proof (fltb_trans _ _ _ H2 H1) as H12.
  pose proof (fltb_trans _ _ _ H3 H12) as H13.
  by rewrite H12, H13.
Qed.

(** X26. With fewer than 200 bars the example's trend is 'bearish',
    whatever the prices did: the 200-bar average is NaN and no price is
    above NaN.  (The default period of six months has about 126 bars.) *)
Theorem X26_example_short_history_is_bearish yf ticker period hist r :
  provider_history yf ticker period "1d" = Ok hist →
  analyze_stock yf ticker period = Some r →
  (length hist < 200)%nat →
  res_trend r = "bearish"%string.
Proof.
  intros Hh Hr Hlen.
  apply analyze_stock_Some in Hr as (hist' & Hh' & Hne & _ & _ & _ & _ & ->).
  rewrite Hh in Hh'. injection Hh' as <-.
  rewrite (rolling_short 200 fmean (Fin <$> hist) NaN)
    by (by apply closes_nonempty || by rewrite length_fmap).
  unfold fgtb at 2. cbn [fltb]. by rewrite andb_false_r.
Qed.

Lemma Qround_zero n : Qround n 0 = 0.
Proof.
  unfold Qround. apply Qred_zero.
  assert (H : rint (0 * inject_Z (10 ^ Z.of_nat n)) = 0%Z).
  { apply Z.le_antisymm.
    - apply rint_upper. change (inject_Z 0) with 0. lra.
    - apply rint_lower. change (inject_Z 0) with 0. lra. }
  rewrite H. change (inject_Z 0) with 0. apply Qmult_0_l.
Qed.

Lemma daily_returns_short (hist : list Q) :
  (length hist ≤ 2)%nat → (length (dropna (pct_change (Fin <$> hist))) ≤ 1)%nat.
Proof.
  destruct hist as [|a [|b [|c l]]]; cbn [length]; intros Hlen; try lia;
    cbn [fmap list_fmap pct_change zip_with dropna List.filter fisnan negb];
    try destruct (negb (fisnan _)); cbn [length]; lia.
Qed.

(** X25. With one or two bars the example's volatility is NaN (the
    standard deviation of fewer than two daily returns), where the
    analyzer, on the same history, reports a volatility of 0. *)
Theorem X25_example_volatility_needs_three_bars yf ticker period hist r :
  provider_history yf ticker period "1d" = Ok hist →
  analyze_stock yf ticker period = Some r →
  (length hist ≤ 2)%nat →
  res_volatility r = NaN ∧
  calculate_returns Qsqrt hist !! "annual_volatility_pct" = Some (PNum (Fin 0)).
Proof.
  intros Hh Hr Hlen.
  apply analyze_stock_Some in Hr as (hist' & Hh' & Hne & _ & _ & _ & -> & _).
  rewrite Hh in Hh'. injection Hh' as <-.
  pose proof (daily_returns_short hist Hlen) as Hshort.
  split.
  - by rewrite (fstd_short Qsqrt _ Hshort).
  - destruct hist as [|c l]; [done|].
    unfold calculate_returns. cbv beta iota zeta.
    rewrite lookup_insert_ne by done. rewrite lookup_insert_eq.
    destruct (Nat.ltb_spec 1 (length (dropna (pct_change (Fin <$> c :: l)))));
      [lia|].
    cbn [fround]. by rewrite Qround_zero.
Qed.

End Example.

End StockAnalysisExample.

(** ** The claims at concrete inputs *)

Lemma numeric_sound_info : numeric_info sound_info = true.
Proof. vm_compute. reflexivity. Defined.

Lemma C1_witness :
  ∃ r, generate_recommendation Qsqrt_trunc (ramp 25) sound_info = Ok r ∧
       total_score r = 75%Z ∧ recommendation r = BUY ∧ conviction r = STRONG.
Proof.
  assert (H : ∃ r, generate_recommendation Qsqrt_trunc (ramp 25) sound_info = Ok r ∧
                   total_score r = 75%Z).
  { eexists. split; vm_compute; reflexivity. }
  destruct H as (r & Hr & Hs). exists r. split; [exact Hr|]. split; [exact Hs|].
  destruct (C1_recommendation_is_step_function Qsqrt_trunc _ _ r Hr) as (_ & H70 & _).
  apply H70. rewrite Hs. discriminate.
Defined.

Lemma C2_witness :
  ∃ r, generate_recommendation Qsqrt_trunc (ramp 25) sound_info = Ok r ∧
       (-50 ≤ total_score r ≤ 100)%Z.
Proof.
  destruct (C2_total_score_range Qsqrt_trunc (ramp 25) sound_info) as [Htotal Hrange].
  destruct (Htotal numeric_sound_info) as [r Hr].
  exists r. split; [exact Hr|]. exact (Hrange r Hr).
Defined.

(** The claim gives 17 for no fundamentals, with 10 for financial health:
    the code gives 12, with 5. *)
Lemma C3_counterexample :
  ∃ r, generate_recommendation Qsqrt_trunc [] ∅ = Ok r ∧
       fundamental_score r = 12%Z ∧ fundamental_score r ≠ 17%Z ∧
       health_points ∅ = Ok 5%Z ∧ health_points ∅ ≠ Ok 10%Z.
Proof.
  eexists. split; [vm_compute; reflexivity|].
  split; [reflexivity|]. split; [discriminate|]. split; [reflexivity|discriminate].
Qed.

Lemma C4_witness :
  calculate_returns Qsqrt_trunc [100] =
    <["cumulative_return_pct" := PNum (Fin 0)]>
    (<["annual_volatility_pct" := PNum (Fin 0)]>
    (<["sharpe_ratio" := PNum (Fin 0)]>
    (<["max_drawdown_pct" := PNum NaN]>
    (<["avg_daily_return_pct" := PNum NaN]>
    (<["positive_days_pct" := PNum NaN]> ∅))))).
Proof.
  destruct (C4_fewer_than_two_bars Qsqrt_trunc [100]) as [[H _]|(c & Hc & H)].
  - apply Nat.lt_succ_diag_r.
  - discriminate H.
  - injection Hc as <-. exact H.
Defined.

(** A single bar does not give an empty or unavailable result: the mapping
    has its six metrics, three of them the number 0. *)
Lemma C4_counterexample :
  calculate_returns Qsqrt_trunc [100] ≠ ∅ ∧
  calculate_returns Qsqrt_trunc [100] !! "cumulative_return_pct" = Some (PNum (Fin 0)) ∧
  calculate_returns Qsqrt_trunc [100] !! "annual_volatility_pct" = Some (PNum (Fin 0)) ∧
  calculate_returns Qsqrt_trunc [100] !! "sharpe_ratio" = Some (PNum (Fin 0)).
Proof.
  split; [|by vm_compute].
  intros H. apply (f_equal (λ m, m !! "sharpe_ratio")) in H.
  vm_compute in H. discriminate H.
Qed.

Lemma C5_witness :
  ∃ q, calculate_technical_indicators Qsqrt_trunc (ramp 15) !! "rsi"
         = Some (PNum (Fin q)) ∧ 0 <= q <= 100 ∧ q = 100.
Proof.
  destruct (C5_rsi_range_and_saturation Qsqrt_trunc (ramp 15))
    as (q & Hq & Hrange & _ & Hsat); [discriminate|].
  exists q. split; [exact Hq|]. split; [exact Hrange|].
  apply Hsat.
  - vm_compute. repeat constructor.
  - vm_compute. repeat constructor.
  - vm_compute. left. reflexivity.
Defined.

(** Fifteen bars at one price: no delta of the trailing window is
    negative, and the reported RSI is 50, not 100. *)
Lemma C5_counterexample :
  Forall (λ d, fltb d (Fin 0) = false) (trailing_deltas (flat 15)) ∧
  calculate_technical_indicators Qsqrt_trunc (flat 15) !! "rsi" = Some (PNum (Fin 50)) ∧
  calculate_technical_indicators Qsqrt_trunc (flat 15) !! "rsi" ≠ Some (PNum (Fin 100)).
Proof.
  split; [vm_compute; repeat constructor|].
  split; [by vm_compute|]. vm_compute. discriminate.
Qed.


Lemma C7_witness :
  (calculate_technical_indicators Qsqrt_trunc (ramp 3) !! "ma_signal"
     = Some (PStr "Bullish") ∧
   ma_points (calculate_technical_indicators Qsqrt_trunc (ramp 3)) = 15%Z) ∨
  (calculate_technical_indicators Qsqrt_trunc (ramp 3) !! "ma_signal"
     = Some (PStr "Bearish") ∧
   ma_points (calculate_technical_indicators Qsqrt_trunc (ramp 3)) = 5%Z).
Proof.
  refine (proj1 (C7_ma_signal_branches Qsqrt_trunc (ramp 3) _)). discriminate.
Defined.

(** The empty price history is an analysis input too: its technical
    mapping has no [ma_signal], the scorer takes the last branch and the
    recommendation carries its 10 points. *)
Lemma C7_counterexample :
  calculate_technical_indicators Qsqrt_trunc [] !! "ma_signal" = None ∧
  ma_points (calculate_technical_indicators Qsqrt_trunc []) = 10%Z ∧
  ∃ r, generate_recommendation Qsqrt_trunc [] ∅ = Ok r ∧
       technical_score r = (10 + 10 + 4 + 5)%Z.
Proof.
  split; [reflexivity|]. split; [reflexivity|].
  eexists. split; [vm_compute; reflexivity|reflexivity].
Qed.

Lemma Qsqrt_trunc_zero : Qsqrt_trunc 0 == 0.
Proof. reflexivity. Defined.

Lemma C8_witness :
  calculate_returns Qsqrt_trunc (flat 3) !! "annual_volatility_pct" = Some (PNum (Fin 0)) ∧
  calculate_returns Qsqrt_trunc (flat 3) !! "sharpe_ratio" = Some (PNum (Fin 0)) ∧
  calculate_returns Qsqrt_trunc (flat 3) !! "max_drawdown_pct" = Some (PNum (Fin 0)) ∧
  calculate_returns Qsqrt_trunc (flat 3) !! "cumulative_return_pct" = Some (PNum (Fin 0)).
Proof.
  apply (C8_flat_history_metrics Qsqrt_trunc (flat 3) 100).
  - exact Qsqrt_trunc_zero.
  - apply Nat.le_succ_diag_r.
  - repeat constructor.
  - discriminate.
Defined.

Lemma C9_witness :
  valuation_points (<["pe_ratio" := PNum (Fin 0)]> ∅) = Ok 7%Z ∧
  valuation_points (delete "pe_ratio" (<["pe_ratio" := PNum (Fin 0)]> ∅)) = Ok 7%Z ∧
  fltb (Fin 0) (Fin 15) = true ∧
  valuation_points (<["pe_ratio" := PNum (Fin 10)]> (<["pe_ratio" := PNum (Fin 0)]> ∅))
    = Ok 15%Z ∧
  score_recommendation ∅ ∅ (<["pe_ratio" := PNum (Fin 0)]> ∅) =
    score_recommendation ∅ ∅ (delete "pe_ratio" (<["pe_ratio" := PNum (Fin 0)]> ∅)).
Proof.
  destruct (C9_zero_pe_scored_as_missing ∅ ∅ (<["pe_ratio" := PNum (Fin 0)]> ∅) 0)
    as (Hzero & Hmissing & Hbelow & Hother & Hsame).
  - reflexivity.
  - reflexivity.
  - split; [exact Hzero|]. split; [exact Hmissing|]. split; [exact Hbelow|].
    split; [|exact Hsame]. apply Hother; [discriminate|reflexivity].
Defined.

Lemma C10_witness :
  calculate_technical_indicators Qsqrt_trunc (ramp 3) !! "ma_signal"
    = Some (PStr "Bearish").
Proof.
  apply (C10_short_history_is_bearish Qsqrt_trunc (ramp 3)).
  - discriminate.
  - change (3 < 200)%nat. lia.
Defined.

(** ** The further properties at concrete inputs *)

Lemma X1_witness :
  ∃ r, generate_recommendation Qsqrt_trunc (ramp 25) sound_info = Ok r ∧
       (13 ≤ technical_score r ≤ 50)%Z ∧ (0 ≤ fundamental_score r ≤ 50)%Z ∧
       (-50 ≤ risk_score r ≤ 0)%Z ∧
       total_score r = (technical_score r + fundamental_score r + risk_score r)%Z.
Proof.
  destruct (generate_recommendation_total Qsqrt_trunc (ramp 25) sound_info
              numeric_sound_info) as [r Hr].
  exists r. split; [exact Hr|].
  exact (X1_score_components Qsqrt_trunc (ramp 25) sound_info r Hr).
Defined.

Lemma X2_witness :
  score_recommendation ∅ ∅ ∅ =
  score_recommendation (<["sharpe_ratio" := PNum (Fin 1)]> ∅)
    (<["ma_20" := PNum (Fin 1)]> ∅) (<["roe" := PNum (Fin 1)]> ∅).
Proof.
  apply X2_scorer_reads_eleven_entries; intros k Hk;
    repeat (apply elem_of_cons in Hk as [->|Hk]; [reflexivity|]);
    by apply elem_of_nil in Hk.
Defined.

Lemma X3_witness :
  ∃ r, generate_recommendation Qsqrt_trunc [100] sound_info = Ok r ∧
       calculate_returns Qsqrt_trunc [100] !! "max_drawdown_pct" = Some (PNum NaN) ∧
       risk_score r = (-25)%Z.
Proof.
  destruct (generate_recommendation_total Qsqrt_trunc [100] sound_info
              numeric_sound_info) as [r Hr].
  exists r. split; [exact Hr|].
  exact (X3_single_bar_risk Qsqrt_trunc 100 sound_info r Hr).
Defined.

Lemma X4_witness :
  dom (calculate_technical_indicators Qsqrt_trunc (ramp 3)) =
    (list_to_set ["current_price"; "ma_20"; "ma_50"; "ma_200"; "rsi"; "bb_upper";
                  "bb_lower"; "ma_signal"; "rsi_signal"; "bb_position"]%string
       : gset string).
Proof.
  refine (proj1 (X4_technical_snapshot_shape Qsqrt_trunc (ramp 3) _)). discriminate.
Defined.

Lemma X5_witness :
  calculate_technical_indicators Qsqrt_trunc (ramp 3) !! "ma_20" = Some (PNum (Fin 0)) ∧
  calculate_technical_indicators Qsqrt_trunc (ramp 3) !! "ma_50" = Some (PNum (Fin 0)) ∧
  calculate_technical_indicators Qsqrt_trunc (ramp 3) !! "ma_200" = Some (PNum (Fin 0)).
Proof.
  assert (Hne : ramp 3 ≠ []) by discriminate.
  destruct (X5_short_history_reads_zero Qsqrt_trunc (ramp 3) Hne) as (H20 & H50 & H200).
  split; [|split].
  - apply H20. change (3 < 20)%nat. lia.
  - apply H50. change (3 < 50)%nat. lia.
  - apply H200. change (3 < 200)%nat. lia.
Defined.

Lemma X6_witness :
  ∃ s q, calculate_technical_indicators Qsqrt_trunc (ramp 3) !! "rsi_signal"
           = Some (PStr s) ∧
         calculate_technical_indicators Qsqrt_trunc (ramp 3) !! "rsi"
           = Some (PNum (Fin q)) ∧
         ((s = "Overbought"%string ∧ 70 <= q <= 100) ∨
          (s = "Oversold"%string ∧ 0 <= q <= 30) ∨
          (s = "Neutral"%string ∧ 30 <= q <= 70 ∧
           rsi_points (calculate_technical_indicators Qsqrt_trunc (ramp 3)) = Ok 10%Z)).
Proof.
  apply (X6_rsi_signal_agrees_with_rsi Qsqrt_trunc (ramp 3)). discriminate.
Defined.

Lemma X7_witness :
  calculate_technical_indicators Qsqrt_trunc (flat 3) !! "ma_signal"
    = Some (PStr "Bearish").
Proof.
  apply (X7_flat_history_is_bearish Qsqrt_trunc (flat 3) 100).
  - discriminate.
  - repeat constructor.
Defined.

Lemma X9_witness :
  ∃ q, calculate_returns Qsqrt_trunc (ramp 3) !! "max_drawdown_pct" = Some (PNum (Fin q)) ∧
       -100 <= q <= 0.
Proof.
  apply (X9_max_drawdown_range Qsqrt_trunc (ramp 3)).
  - change (2 ≤ 3)%nat. lia.
  - repeat constructor.
Defined.

Lemma X10_witness :
  ∃ q, calculate_returns Qsqrt_trunc (ramp 3) !! "positive_days_pct" = Some (PNum (Fin q)) ∧
       0 <= q <= 100.
Proof.
  apply (X10_positive_days_range Qsqrt_trunc (ramp 3)).
  - change (2 ≤ 3)%nat. lia.
  - repeat constructor.
Defined.

Lemma X11_witness :
  ∃ q, calculate_returns Qsqrt_trunc (ramp 3) !! "cumulative_return_pct"
         = Some (PNum (Fin q)) ∧ 0 <= q.
Proof.
  destruct (X11_cumulative_return_sign Qsqrt_trunc (ramp 3) 100 102)
    as (q & Hq & Hup & _); [reflexivity|reflexivity|reflexivity|].
  exists q. split; [exact Hq|]. apply Hup. discriminate.
Defined.

Lemma X12_witness :
  ∃ f, analyze_fundamentals sound_info = Ok f ∧
       f !! "pe_ratio" = Some (PNum (Fin 12)).
Proof.
  destruct (analyze_fundamentals_total sound_info numeric_sound_info) as (f & Hf & _).
  exists f. split; [exact Hf|].
  rewrite (X12_fundamentals_extraction sound_info f "trailingPE" "pe_ratio" Hf).
  - reflexivity.
  - unfold metrics. apply list_elem_of_here.
Defined.


Lemma X14_witness :
  ∃ e, analyze_fundamentals
         (<["totalRevenue" := PStr "n/a"]> (<["marketCap" := PNum (Fin 1000)]> ∅))
       = Raise e.
Proof.
  apply (X14_fundamentals_raise_exactly
           (<["totalRevenue" := PStr "n/a"]> (<["marketCap" := PNum (Fin 1000)]> ∅))).
  - vm_compute. discriminate.
  - exact I.
  - exists (PNum (Fin 1000)). split; [reflexivity|]. split; [reflexivity|].
    left. by exists "n/a"%string.
Defined.

Lemma X16_witness :
  ∃ r t s, generate_recommendation Qsqrt_trunc (ramp 25) sound_info = Ok r ∧
    price_target r = Fin t ∧ stop_loss r = Fin s ∧ 0 <= t ∧ 0 <= s ∧
    match recommendation r with SELL => t <= s | _ => s <= t end.
Proof.
  destruct (generate_recommendation_total Qsqrt_trunc (ramp 25) sound_info
              numeric_sound_info) as [r Hr].
  destruct (X16_stop_and_target_order Qsqrt_trunc (ramp 25) sound_info r Hr)
    as (t & s & H).
  exists r, t, s. split; [exact Hr|exact H].
Defined.

Lemma X17_witness :
  ∃ rep, generate_report Qsqrt_trunc "2024-01-02 09:30:00"
           (__init__ (demo_provider (ramp 3) sound_info) "DEMO" "US" "1y" "1d") = Ok rep ∧
    score_recommendation (returns_analysis rep) (technical_analysis rep)
      (fundamental_analysis rep) = Ok (trading_recommendation rep) ∧
    data_points rep = 3%nat.
Proof.
  destruct (generate_report Qsqrt_trunc "2024-01-02 09:30:00"
              (__init__ (demo_provider (ramp 3) sound_info) "DEMO" "US" "1y" "1d"))
    as [rep|e] eqn:Hrep; [|vm_compute in Hrep; discriminate Hrep].
  exists rep. split; [reflexivity|].
  destruct (X17_report_is_consistent Qsqrt_trunc _ _ rep Hrep) as (Hscore & Hpoints & _).
  split; [exact Hscore|exact Hpoints].
Defined.

Lemma X20_witness :
  ∃ rep, analyze_stock Qsqrt_trunc (demo_provider (ramp 3) sound_info)
           "2024-01-02 09:30:00" "NOPE" "US" "1y" = Ok rep ∧
    data_points rep = 0%nat ∧
    recommendation (trading_recommendation rep) = HOLD ∧
    conviction (trading_recommendation rep) = NEUTRAL ∧
    total_score (trading_recommendation rep) = 41%Z.
Proof.
  destruct (X20_unknown_ticker_report Qsqrt_trunc (demo_provider (ramp 3) sound_info)
              "2024-01-02 09:30:00" "NOPE" "US" "1y")
    as (rep & Hrep & Hpoints & _ & _ & _ & _ & _ & Hrec & Hconv & Htot).
  - right. exists ProviderError. reflexivity.
  - right. exists ProviderError. reflexivity.
  - exists rep. repeat (apply conj); assumption.
Defined.

Lemma X21_witness :
  ∃ rep, generate_report Qsqrt_trunc "2024-01-02 09:30:00"
           (__init__ (demo_provider (ramp 3) sound_info) "DEMO" "US" "1y" "1d") = Ok rep ∧
    basic_info rep !! "pe_ratio" = Some (PNum (Fin 12)) ∧
    fundamental_analysis rep !! "pe_ratio" = Some (PNum (fround 3 (Fin 12))).
Proof.
  destruct (generate_report Qsqrt_trunc "2024-01-02 09:30:00"
              (__init__ (demo_provider (ramp 3) sound_info) "DEMO" "US" "1y" "1d"))
    as [rep|e] eqn:Hrep; [|vm_compute in Hrep; discriminate Hrep].
  exists rep. split; [reflexivity|].
  apply (X21_ratio_raw_and_rounded Qsqrt_trunc _ _ rep "trailingPE" "pe_ratio" (Fin 12) Hrep).
  - apply list_elem_of_here.
  - reflexivity.
Defined.

Lemma X23_witness :
  ∃ r, StockAnalysisExample.analyze_stock Qsqrt_trunc
         (demo_provider (ramp 200) ∅) "DEMO" "1y" = Some r ∧
       StockAnalysisExample.res_trend r = "bullish"%string.
Proof.
  destruct (StockAnalysisExample.analyze_stock_total Qsqrt_trunc
              (demo_provider (ramp 200) ∅) "DEMO" "1y" (ramp 200) ∅)
    as [r Hr]; [reflexivity|discriminate|reflexivity|].
  exists r. split; [exact Hr|].
  apply (StockAnalysisExample.X23_bullish_signal_gives_bullish_trend Qsqrt_trunc
           (demo_provider (ramp 200) ∅) "DEMO" "1y" (ramp 200) r).
  - reflexivity.
  - exact Hr.
  - vm_compute. reflexivity.
Defined.

Lemma X25_witness :
  ∃ r, StockAnalysisExample.analyze_stock Qsqrt_trunc
         (demo_provider (ramp 2) ∅) "DEMO" "1y" = Some r ∧
       StockAnalysisExample.res_volatility r = NaN ∧
       calculate_returns Qsqrt_trunc (ramp 2) !! "annual_volatility_pct" =
         Some (PNum (Fin 0)).
Proof.
  destruct (StockAnalysisExample.analyze_stock_total Qsqrt_trunc
              (demo_provider (ramp 2) ∅) "DEMO" "1y" (ramp 2) ∅)
    as [r Hr]; [reflexivity|discriminate|reflexivity|].
  exists r. split; [exact Hr|].
  apply (StockAnalysisExample.X25_example_volatility_needs_three_bars Qsqrt_trunc
           (demo_provider (ramp 2) ∅) "DEMO" "1y" (ramp 2) r).
  - reflexivity.
  - exact Hr.
  - change (2 ≤ 2)%nat. lia.
Defined.

Lemma X26_witness :
  ∃ r, StockAnalysisExample.analyze_stock Qsqrt_trunc
         (demo_provider (ramp 3) ∅) "DEMO" "6mo" = Some r ∧
       StockAnalysisExample.res_trend r = "bearish"%string.
Proof.
  destruct (StockAnalysisExample.analyze_stock_total Qsqrt_trunc
              (demo_provider (ramp 3) ∅) "DEMO" "6mo" (ramp 3) ∅)
    as [r Hr]; [reflexivity|discriminate|reflexivity|].
  exists r. split; [exact Hr|].
  apply (StockAnalysisExample.X26_example_short_history_is_bearish Qsqrt_trunc
           (demo_provider (ramp 3) ∅) "DEMO" "6mo" (ramp 3) r).
  - reflexivity.
  - exact Hr.
  - change (3 < 200)%nat. lia.
Defined.
